(** * Source-structure analysis of the Mini IDE (fallaoi-cpp.py)

    A shallow embedding of the three routines of [MiniIDE] that derive
    overlays from the text of an editor tab:

    - [_analyze_code_structure]  (fold regions, two grammars),
    - [_toggle_fold]             (collapse / expand of one region),
    - [_apply_syntax_highlight]  (style tags from a token stream),

    followed by the properties established for them.

    Conventions of the embedding.

    - A Python [str] is a Rocq [string]; one [ascii] stands for one code
      point, so the development covers texts whose code points lie in
      0..255.  Character classes ([str.isspace], the regex classes [\s]
      and [\w]) are the ones CPython uses on that range.
    - Line numbers, columns and offsets are [nat] (they are never negative
      in the source; [max(0, i-2)] is truncated subtraction).
    - A Python list used as a stack ([append] / [pop] at the end) is a
      list whose head is the top of the stack, i.e. the Python list
      reversed; loops that walk the Python list front to back walk [rev].
    - A fold region is the tuple [(type, start_line, end_line)] with the
      type one of the strings the source uses. *)

From Stdlib Require Import String Ascii List Arith ZArith Bool Lia Sorted.
From stdpp Require Import base option list strings gmap pretty.
Import ListNotations.

Local Open Scope string_scope.
Local Open Scope nat_scope.

(** ** Python string primitives *)

Module PyStr.

(** Line feed, double quote and backslash, by code. *)
Definition LF : ascii := "010"%char.
Definition DQ : ascii := "034"%char.
Definition BS : ascii := "092"%char.

Definition nl : string := String LF EmptyString.
Definition dq : string := String DQ EmptyString.

Definition len (s : string) : nat := String.length s.

Definition code (c : ascii) : nat := nat_of_ascii c.

Definition between (lo hi n : nat) : bool := (lo <=? n) && (n <=? hi).

(** [str.isspace] on one code point below 256 (also the regex class [\s]). *)
Definition isspace (c : ascii) : bool :=
  let n := code c in
  between 9 13 n || between 28 32 n || (n =? 133) || (n =? 160).

(** The regex class [\w] on one code point below 256:
    alphanumeric (in the Unicode sense) or underscore. *)
Definition isword (c : ascii) : bool :=
  let n := code c in
  between 48 57 n || between 65 90 n || (n =? 95) || between 97 122 n
  || (n =? 170) || (n =? 178) || (n =? 179) || (n =? 181) || (n =? 185)
  || (n =? 186) || between 188 190 n || between 192 214 n
  || between 216 246 n || between 248 255 n.

Definition char_eqb (a b : ascii) : bool := Ascii.eqb a b.

(** [s.lstrip()], [s.rstrip()], [s.strip()]. *)
Fixpoint lstrip (s : string) : string :=
  match s with
  | String c r => if isspace c then lstrip r else s
  | EmptyString => EmptyString
  end.

Fixpoint rstrip (s : string) : string :=
  match s with
  | String c r =>
      match rstrip r with
      | EmptyString => if isspace c then EmptyString else String c EmptyString
      | r' => String c r'
      end
  | EmptyString => EmptyString
  end.

Definition strip (s : string) : string := rstrip (lstrip s).

(** [s.startswith(p)] and [s.endswith(p)]. *)
Definition startswith (s p : string) : bool := String.prefix p s.

Definition endswith (s p : string) : bool :=
  (len p <=? len s) && String.eqb (String.substring (len s - len p) (len p) s) p.

(** [s.endswith((p1, ..., pn))]. *)
Definition endswith_any (s : string) (ps : list string) : bool :=
  existsb (endswith s) ps.

(** [p in s]. *)
Fixpoint contains (s p : string) : bool :=
  String.prefix p s ||
  match s with
  | String _ r => contains r p
  | EmptyString => false
  end.

(** [s[:j]]. *)
Definition upto (s : string) (j : nat) : string := String.substring 0 j s.

(** [s.split('\n')]: never empty, [''.split('\n') == ['']]. *)
Fixpoint split_lines (s : string) : list string :=
  match s with
  | EmptyString => [EmptyString]
  | String c r =>
      if char_eqb c LF then EmptyString :: split_lines r
      else match split_lines r with
           | l :: ls => String c l :: ls
           | [] => [String c EmptyString]
           end
  end.

(** [sep.join(parts)]. *)
Definition join (sep : string) (parts : list string) : string :=
  String.concat sep parts.

(** [xs[a:b]] for [0 <= a]. *)
Definition slice {A} (xs : list A) (a b : nat) : list A :=
  firstn (b - a) (skipn a xs).

End PyStr.

Import PyStr.

(** ** Fold regions *)

(** [(type, start_line, end_line)] as appended to [fold_regions]. *)
Definition region : Type := string * nat * nat.

Definition region_type (r : region) : string := r.1.1.
Definition region_start (r : region) : nat := r.1.2.
Definition region_end (r : region) : nat := r.2.

(** ** The indentation grammar ([filepath.endswith('.py')]) *)

Module Indent.

(** An entry of [indent_stack]: [(type, line, indent)]. *)
Definition entry : Type := string * nat * nat.

(** [len(line) - len(line.lstrip())] *)
Definition indent_of (line : string) : nat := len line - len (lstrip line).

(** The inner [while indent_stack and indent_stack[-1][2] >= current_indent]
    loop; the head of [indent_stack] is [indent_stack[-1]]. *)
Fixpoint close_deeper (i current_indent : nat) (indent_stack : list entry)
    (fold_regions : list region) : list entry * list region :=
  match indent_stack with
  | (start_type, start_line, ind) :: rest =>
      if current_indent <=? ind then
        close_deeper i current_indent rest
          (if start_line <? i
           then fold_regions ++ [(start_type, start_line, i)]
           else fold_regions)
      else (indent_stack, fold_regions)
  | [] => ([], fold_regions)
  end.

(** Body of [for i, line in enumerate(lines, 1)]. *)
Definition scan_line (i : nat) (line : string)
    (st : list entry * list region) : list entry * list region :=
  let '(indent_stack, fold_regions) := st in
  let stripped := strip line in
  if startswith stripped "class " then
    (("class", i, indent_of line) :: indent_stack, fold_regions)
  else if startswith stripped "def " then
    (("function", i, indent_of line) :: indent_stack, fold_regions)
  else if endswith stripped ":" && negb (startswith stripped "#") then
    let current_indent := indent_of line in
    let '(stack', regions') :=
      close_deeper i current_indent indent_stack fold_regions in
    (("block", i, current_indent) :: stack', regions')
  else st.

Fixpoint scan_lines (i : nat) (lines : list string)
    (st : list entry * list region) : list entry * list region :=
  match lines with
  | [] => st
  | line :: rest => scan_lines (S i) rest (scan_line i line st)
  end.

(** The trailing [for start_type, start_line, _ in indent_stack] loop:
    every entry still open is closed at [len(lines)], oldest first. *)
Definition close_remaining (n : nat) (indent_stack : list entry) : list region :=
  map (fun e : entry => (e.1.1, e.1.2, n)) (rev indent_stack).

Definition analyze (lines : list string) : list region :=
  let '(indent_stack, fold_regions) := scan_lines 1 lines ([], []) in
  fold_regions ++ close_remaining (length lines) indent_stack.

End Indent.

(** ** The regular expression of the signature heuristic *)

Module Re.

(** The fragment of regular expressions the source uses: a sequence of
    items, each a character class taken once, zero or more times or one
    or more times, or the end anchor [$]. *)
Inductive item : Type :=
| One (p : ascii -> bool)
| Star (p : ascii -> bool)
| Plus (p : ascii -> bool)
| Eos.

(** [p*] followed by the continuation [k], trying every split. *)
Fixpoint match_star (p : ascii -> bool) (k : string -> bool) (s : string) : bool :=
  k s ||
  match s with
  | String c r => p c && match_star p k r
  | EmptyString => false
  end.

(** [$] matches at the end of the subject and before a final line feed. *)
Definition at_eos (s : string) : bool :=
  String.eqb s EmptyString || String.eqb s nl.

(** Does the pattern match a prefix of [s]? *)
Fixpoint match_here (pat : list item) (s : string) : bool :=
  match pat with
  | [] => true
  | One p :: pat' =>
      match s with
      | String c r => p c && match_here pat' r
      | EmptyString => false
      end
  | Star p :: pat' => match_star p (match_here pat') s
  | Plus p :: pat' =>
      match s with
      | String c r => p c && match_star p (match_here pat') r
      | EmptyString => false
      end
  | Eos :: pat' => at_eos s && match_here pat' s
  end.

(** [re.search(pat, s)] as a truth value: a match at some position. *)
Fixpoint search (pat : list item) (s : string) : bool :=
  match_here pat s ||
  match s with
  | String _ r => search pat r
  | EmptyString => false
  end.

(** [r'\w+\s*\([^)]*\)\s*$'] *)
Definition signature : list item :=
  [ Plus isword; Star isspace; One (char_eqb "("%char);
    Star (fun c => negb (char_eqb c ")"%char)); One (char_eqb ")"%char);
    Star isspace; Eos ].

End Re.

(** ** The brace grammar ([filepath.endswith(('.c', '.cpp', '.h'))]) *)

Module Brace.

(** The local variables of the scan that live across loop iterations.
    The head of [brace_stack] is the top of the stack. *)
Record state : Type := mk_state {
  brace_stack : list (string * nat);
  in_comment : bool;
  in_string : bool;
  escape_next : bool;
  fold_regions : list region
}.

Definition initial : state :=
  {| brace_stack := []; in_comment := false; in_string := false;
     escape_next := false; fold_regions := [] |}.

Definition set_escape_next (b : bool) (st : state) : state :=
  {| brace_stack := brace_stack st; in_comment := in_comment st;
     in_string := in_string st; escape_next := b;
     fold_regions := fold_regions st |}.

Definition set_in_string (b : bool) (st : state) : state :=
  {| brace_stack := brace_stack st; in_comment := in_comment st;
     in_string := b; escape_next := escape_next st;
     fold_regions := fold_regions st |}.

Definition set_in_comment (b : bool) (st : state) : state :=
  {| brace_stack := brace_stack st; in_comment := b;
     in_string := in_string st; escape_next := escape_next st;
     fold_regions := fold_regions st |}.

Definition push_brace (e : string * nat) (st : state) : state :=
  {| brace_stack := e :: brace_stack st; in_comment := in_comment st;
     in_string := in_string st; escape_next := escape_next st;
     fold_regions := fold_regions st |}.

(** The [char == '}'] branch: pop if the stack is non-empty and record
    the region when it spans more than one line. *)
Definition pop_brace (i : nat) (st : state) : state :=
  match brace_stack st with
  | (start_type, start_line) :: rest =>
      {| brace_stack := rest; in_comment := in_comment st;
         in_string := in_string st; escape_next := escape_next st;
         fold_regions :=
           if start_line <? i
           then fold_regions st ++ [(start_type, start_line, i)]
           else fold_regions st |}
  | [] => st
  end.

Definition keywords : list string :=
  ["class"; "struct"; "enum"; "union"; "namespace"].

(** [lines[max(0, i-2):i-1]]: the line before line [i], if any. *)
Definition prev_lines (lines : list string) (i : nat) : list string :=
  slice lines (i - 2) (i - 1).

(** The test guarding [brace_stack.append(('block', i))]. *)
Definition opens_block (lines : list string) (i : nat) (line : string) (j : nat) : bool :=
  let prev_text := join " " (prev_lines lines i ++ [upto line j]) in
  existsb (contains prev_text) keywords
  || Re.search Re.signature (join nl (prev_lines lines i)).

(** How one iteration of [while j < len(line)] leaves the loop body. *)
Inductive control : Type :=
| Advance (n : nat)   (* [j += n] and back to the loop test *)
| Break.              (* [break] *)

Definition next_is (next : option ascii) (c : ascii) : bool :=
  match next with
  | Some d => char_eqb d c
  | None => false
  end.

(** One iteration of the character loop at column [j] of line [i]:
    [char] is [line[j]], and [next] is [line[j+1]] when
    [j + 1 < len(line)]. *)
Definition step (lines : list string) (i : nat) (line : string) (j : nat)
    (char : ascii) (next : option ascii) (st : state) : state * control :=
  if escape_next st then (set_escape_next false st, Advance 1)
  else if char_eqb char BS then (set_escape_next true st, Advance 1)
  else if char_eqb char DQ && negb (in_comment st) then
    (set_in_string (negb (in_string st)) st, Advance 1)
  else if char_eqb char "/"%char && negb (in_string st) && next_is next "*"%char then
    (set_in_comment true st, Advance 2)
  else if char_eqb char "/"%char && negb (in_string st) && next_is next "/"%char then
    (st, Break)
  else if char_eqb char "*"%char && in_comment st && next_is next "/"%char then
    (set_in_comment false st, Advance 2)
  else if negb (in_comment st) && negb (in_string st) then
    if char_eqb char "{"%char then
      ((if opens_block lines i line j then push_brace ("block", i) st else st),
       Advance 1)
    else if char_eqb char "}"%char then (pop_brace i st, Advance 1)
    else (st, Advance 1)
  else (st, Advance 1).

Definition head_char (s : string) : option ascii :=
  match s with
  | String c _ => Some c
  | EmptyString => None
  end.

(** [while j < len(line)]: [rest] is [line[j:]].  The loop body only
    ever advances by two when [line[j+1]] exists. *)
Fixpoint scan_chars (lines : list string) (i : nat) (line : string)
    (j : nat) (rest : string) (st : state) : state :=
  match rest with
  | EmptyString => st
  | String char rest1 =>
      match step lines i line j char (head_char rest1) st with
      | (st', Break) => st'
      | (st', Advance 2) =>
          match rest1 with
          | String _ rest2 => scan_chars lines i line (j + 2) rest2 st'
          | EmptyString => st'
          end
      | (st', Advance _) => scan_chars lines i line (j + 1) rest1 st'
      end
  end.

(** Body of [for i, line in enumerate(lines, 1)]. *)
Definition scan_line (lines : list string) (i : nat) (line : string)
    (st : state) : state :=
  scan_chars lines i line 0 line st.

(** The line loop over a suffix [todo] of [lines] starting at line [i]. *)
Fixpoint scan_lines (lines : list string) (i : nat) (todo : list string)
    (st : state) : state :=
  match todo with
  | [] => st
  | line :: rest => scan_lines lines (S i) rest (scan_line lines i line st)
  end.

(** The scanner state with which line [k] (1-based) is entered. *)
Definition state_before (lines : list string) (k : nat) : state :=
  scan_lines lines 1 (firstn (k - 1) lines) initial.

Definition final_state (lines : list string) : state :=
  scan_lines lines 1 lines initial.

Definition analyze (lines : list string) : list region :=
  fold_regions (final_state lines).

End Brace.

(** ** [_analyze_code_structure] *)

(** The region list the routine computes, or [None] when it returns before
    storing anything ([if not filepath: return]). *)
Definition analyze (content filepath : string) : option (list region) :=
  if String.eqb filepath EmptyString then None
  else
    let lines := split_lines content in
    if endswith filepath ".py" then Some (Indent.analyze lines)
    else if endswith_any filepath [".c"; ".cpp"; ".h"] then Some (Brace.analyze lines)
    else Some [].

(** [self.fold_regions]: editor (by identity) to its region list. *)
Definition _analyze_code_structure (self_fold_regions : gmap nat (list region))
    (editor : nat) (content filepath : string) : gmap nat (list region) :=
  match analyze content filepath with
  | Some regions => <[editor := regions]> self_fold_regions
  | None => self_fold_regions
  end.

(** [self.fold_regions.get(editor, [])] *)
Definition regions_of (self_fold_regions : gmap nat (list region)) (editor : nat) : list region :=
  default [] (self_fold_regions !! editor).

(** ** The text widget as [_toggle_fold] uses it *)

Module Editor.

(** The widget's text as its list of lines (never empty; the newline Tk
    keeps after the last line is not part of it), and the names of the
    marks that are set (their positions are not recorded). *)
Record editor : Type := mk_editor {
  text_lines : list string;
  marks : gset string
}.

(** [editor.get("1.0", "end-1c")] *)
Definition get_content (ed : editor) : string := join nl (text_lines ed).

Definition of_content (content : string) : editor :=
  {| text_lines := split_lines content; marks := ∅ |}.

(** Tk reads a line number below 1 as line 1. *)
Definition clamp_line (l : nat) : nat := Nat.max 1 l.

(** [editor.insert(f"{l}.0", chars)] for [chars] without a line feed:
    [chars] goes in front of line [l]; an index past the last line is
    the end of the text, where Tk inserts at the end of the last line. *)
Definition insert_at_line_start (l : nat) (chars : string) (lines : list string) : list string :=
  let k := clamp_line l in
  if k <=? length lines then alter (String.append chars) (k - 1) lines
  else alter (fun line => String.append line chars) (length lines - 1) lines.

(** [editor.delete(f"{s}.0+1l", f"{e}.0")]: the characters from the start
    of line [s+1] up to the start of line [e], i.e. the whole lines
    [s+1 .. e-1]; nothing when the first index is not before the second. *)
Definition delete_between_lines (s e : nat) (lines : list string) : list string :=
  let k := clamp_line s in
  if k + 1 <? e then take k lines ++ drop (e - 1) lines else lines.

(** [f"fold_{start_line}"] *)
Definition fold_mark (start_line : nat) : string :=
  String.append "fold_" (pretty start_line).

(** How a call ends: it returns a value or raises the named exception. *)
Inductive outcome (A : Type) : Type :=
| Returned (a : A)
| Raised (exception : string).

Arguments Returned {A} a.
Arguments Raised {A} exception.

(** [editor.mark_get(name)].  The editor of a tab is a plain [tk.Text]
    (made in [new_editor_tab]).  [tkinter.Text] has the methods [mark_set],
    [mark_unset], [mark_names], [mark_gravity], [mark_next] and
    [mark_previous] but no [mark_get], and it defines no [__getattr__]:
    looking the attribute up raises [AttributeError] and nothing is
    called. *)
Definition mark_get (ed : editor) (name : string) : outcome bool :=
  Raised "AttributeError".

End Editor.

Import Editor.

(** ** [_toggle_fold] *)

Definition placeholder : string := " [...] ".

(** The editor after the call and how the call ended.  An exception raised
    by [mark_get] leaves the routine at once. *)
Definition _toggle_fold (ed : editor) (start_line end_line : nat) : editor * outcome unit :=
  let fold_mark := Editor.fold_mark start_line in
  match mark_get ed fold_mark with
  | Raised exception => (ed, Raised exception)
  | Returned true =>
      (* expand *)
      ({| text_lines := delete_between_lines start_line end_line (text_lines ed);
          marks := marks ed ∖ {[ fold_mark ]} |}, Returned tt)
  | Returned false =>
      (* collapse *)
      ({| text_lines := insert_at_line_start start_line placeholder (text_lines ed);
          marks := {[ fold_mark ]} ∪ marks ed |}, Returned tt)
  end.

(** ** [_apply_syntax_highlight] *)

Module Highlight.

(** A token as the lexer yields it: [(str(token_type), value)]. *)
Definition token : Type := string * string.

(** One [editor.tag_add(tag_name, pos, end)], with both indices given as
    character offsets from the start of the widget's text. *)
Definition tag_op : Type := string * nat * nat.

Inductive lexer : Type := PythonLexer | CLexer | CppLexer.

(** The characters the widget searches: the content and the newline Tk
    keeps at the end. *)
Definition widget_text (content : string) : string := String.append content nl.

(** [s[n:]] *)
Fixpoint drop_chars (n : nat) (s : string) : string :=
  match n, s with
  | S n', String _ r => drop_chars n' r
  | _, _ => s
  end.

(** Offset of the first occurrence of [value] in [text]. *)
Fixpoint find (value text : string) : option nat :=
  if String.prefix value text then Some 0
  else match text with
       | String _ r => S <$> find value r
       | EmptyString => None
       end.

(** [editor.search(value, start, stopindex="end", regexp=False)]:
    the first occurrence at or after [start], without wrapping around. *)
Definition search (value text : string) (start : nat) : option nat :=
  if start <=? len text then (fun p => start + p) <$> find value (drop_chars start text)
  else None.

(** The [while True] loop that tags one token; [fuel] bounds the number
    of iterations. *)
Fixpoint tag_loop (fuel : nat) (tag_name value text : string) (start : nat)
    (added : list tag_op) : list tag_op :=
  match fuel with
  | 0 => added
  | S fuel' =>
      match search value text start with
      | None => added
      | Some pos =>
          let end_ := pos + len value in
          tag_loop fuel' tag_name value text end_ (added ++ [(tag_name, pos, end_)])
      end
  end.

(** The tags added for one token.  A token with a non-empty value needs
    at most [len text + 1] iterations (lemma [tag_loop_fuel] below). *)
Definition tag_token (text : string) (tok : token) : list tag_op :=
  tag_loop (S (len text)) tok.1 tok.2 text 0 [].

Definition select_lexer (filepath : string) : option lexer :=
  if endswith filepath ".py" then Some PythonLexer
  else if endswith filepath ".c" then Some CLexer
  else if endswith_any filepath [".cpp"; ".cc"; ".cxx"; ".h"; ".hpp"] then Some CppLexer
  else None.

Section Tagger.

(** Whether pygments could be imported, and its [lex]; [None] stands
    for an exception raised by the call. *)
Variable PYGMENTS_AVAILABLE : bool.
Variable lex : string -> lexer -> option (list token).

(** The [tag_add] calls of one run, in order. *)
Definition _apply_syntax_highlight (content filepath : string) : list tag_op :=
  if negb PYGMENTS_AVAILABLE then []
  else match select_lexer filepath with
       | None => []
       | Some lexer =>
           match lex content lexer with
           | None => []
           | Some tokens => flat_map (tag_token (widget_text content)) tokens
           end
       end.

End Tagger.


End Highlight.

(** ** Orderings on region lists *)

(** [a] may precede [b] in a list sorted by start line ascending and, for
    equal start lines, by end line descending. *)
Definition outer_first (a b : region) : Prop :=
  region_start a < region_start b
  \/ (region_start a = region_start b /\ region_end b <= region_end a).

(** [a] may precede [b] in a list sorted by end line ascending. *)
Definition by_end (a b : region) : Prop := region_end a <= region_end b.

(** File types named by either routine. *)
Definition supported_extensions : list string :=
  [".py"; ".c"; ".cpp"; ".cc"; ".cxx"; ".h"; ".hpp"].

Definition unsupported (filepath : string) : Prop :=
  endswith_any filepath supported_extensions = false.

(** ** Predicates on scanner states and lines *)

(** Every character of [s] satisfies [p]. *)
Fixpoint all_chars (p : ascii -> bool) (s : string) : bool :=
  match s with
  | String c r => p c && all_chars p r
  | EmptyString => true
  end.

Definition is_not (cs : list ascii) (c : ascii) : bool :=
  negb (existsb (char_eqb c) cs).

(** The brace scanner is outside comments and strings with no escape
    pending. *)
Definition normal_mode (st : Brace.state) : Prop :=
  Brace.in_comment st = false /\ Brace.in_string st = false
  /\ Brace.escape_next st = false.

(** Sorted by end line, and no end line above [n]. *)
Definition sorted_upto (n : nat) (regions : list region) : Prop :=
  StronglySorted by_end regions /\ Forall (fun r => region_end r <= n) regions.

(** Every region spans more than one line. *)
Definition proper (regions : list region) : Prop :=
  Forall (fun r => region_start r < region_end r) regions.

(** ** Inputs used in the statements below *)

Module Inputs.

Definition brace_same_line : string :=
  "void f() {" ++ nl ++ "  int x;" ++ nl ++ "}" ++ nl.

Definition brace_next_line : string :=
  "void f()" ++ nl ++ "{" ++ nl ++ "  int x;" ++ nl ++ "}" ++ nl.

Definition class_with_method : string :=
  "class C:" ++ nl ++ "    def m(self):" ++ nl ++ "        pass" ++ nl.

Definition class_with_method_no_final_newline : string :=
  "class C:" ++ nl ++ "    def m(self):" ++ nl ++ "        pass".

Definition nested_structs : string :=
  "struct A {" ++ nl ++ "  struct B {" ++ nl ++ "  };" ++ nl ++ "};".

Definition lone_header : string := "def f():".

Definition small_function : string :=
  "def f():" ++ nl ++ "    a" ++ nl ++ "    b".


(** The token stream of pygments' Python lexer for [foo(foo)]: both names
    have the type [Token.Name], and the lexer ends the text with a line
    feed, a token of its own whose type is [newline_type]. *)
Definition call_tokens_ending (newline_type : string) : list Highlight.token :=
  [ ("Token.Name", "foo"); ("Token.Punctuation", "(");
    ("Token.Name", "foo"); ("Token.Punctuation", ")"); (newline_type, nl) ].

Definition call_tokens : list Highlight.token :=
  call_tokens_ending "Token.Text.Whitespace".

Definition call_lex (content : string) (lx : Highlight.lexer) : option (list Highlight.token) :=
  Some call_tokens.





End Inputs.

(** ** [_update_line_numbers] *)

(** [int(editor.index("end-1c").split(".")[0])]: the number of the last
    line of the text. *)
Definition last_line (content : string) : nat := length (split_lines content).

(** The text written into the line-number column:
    ["\n".join(str(i) for i in range(1, int(last)+1))]. *)
Definition _update_line_numbers (content : string) : string :=
  join nl (map pretty (seq 1 (last_line content))).

(** ** The configuration and the handlers that change it *)

Module Config.

(** [self.config_data].  The dictionary is created with all six keys and no
    key is ever deleted, so it is a record; [gcc_path] starts as [None]. *)
Record config_data : Type := mk_config {
  gcc_path : option string;
  font_size : Z;
  theme : string;
  autosave_interval : Z;
  recent_files : list string;
  max_recent_files : Z
}.

Definition initial : config_data :=
  {| gcc_path := None; font_size := 13; theme := "light"; autosave_interval := 0;
     recent_files := []; max_recent_files := 10 |}.

Definition set_recent_files (l : list string) (c : config_data) : config_data :=
  {| gcc_path := gcc_path c; font_size := font_size c; theme := theme c;
     autosave_interval := autosave_interval c; recent_files := l;
     max_recent_files := max_recent_files c |}.

Definition set_font_size (n : Z) (c : config_data) : config_data :=
  {| gcc_path := gcc_path c; font_size := n; theme := theme c;
     autosave_interval := autosave_interval c; recent_files := recent_files c;
     max_recent_files := max_recent_files c |}.

Definition set_theme (t : string) (c : config_data) : config_data :=
  {| gcc_path := gcc_path c; font_size := font_size c; theme := t;
     autosave_interval := autosave_interval c; recent_files := recent_files c;
     max_recent_files := max_recent_files c |}.

(** [l.remove(x)] for an [x] that occurs in [l]: the first occurrence goes. *)
Fixpoint remove_first (x : string) (l : list string) : list string :=
  match l with
  | [] => []
  | y :: rest => if String.eqb y x then rest else y :: remove_first x rest
  end.

(** [l[:m]] for any integer [m]: a negative [m] counts from the end. *)
Definition slice_to {A} (l : list A) (m : Z) : list A :=
  if (0 <=? m)%Z then take (Z.to_nat m) l
  else take (length l - Z.to_nat (- m)) l.

(** [_add_recent_file], up to [save_config] and the rebuilding of the menu. *)
Definition _add_recent_file (c : config_data) (file_path : string) : config_data :=
  let recent := recent_files c in
  let recent :=
    if existsb (String.eqb file_path) recent then remove_first file_path recent
    else recent in
  let recent := file_path :: recent in
  let max_files := max_recent_files c in
  set_recent_files (slice_to recent max_files) c.

(** [_on_ctrl_scroll]: the new configuration for a wheel event with the
    given [event.delta]. *)
Definition _on_ctrl_scroll (c : config_data) (delta : Z) : config_data :=
  if (0 <? delta)%Z then set_font_size (Z.min 24 (font_size c + 1)) c
  else set_font_size (Z.max 8 (font_size c - 1)) c.

(** The four colours a theme sets. *)
Record palette : Type := mk_palette {
  editor_bg : string;
  editor_fg : string;
  linenumber_bg : string;
  linenumber_fg : string
}.

(** [_setup_light_theme] and [_setup_dark_theme] *)
Definition light : palette :=
  {| editor_bg := "white"; editor_fg := "black";
     linenumber_bg := "#f0f0f0"; linenumber_fg := "#666" |}.

Definition dark : palette :=
  {| editor_bg := "#1e1e1e"; editor_fg := "#d4d4d4";
     linenumber_bg := "#252526"; linenumber_fg := "#858585" |}.

(** [_apply_theme]: the colours in force afterwards. *)
Definition _apply_theme (c : config_data) : palette :=
  if String.eqb (theme c) "dark" then dark else light.

(** [_toggle_theme]: the new configuration (it is then saved and applied). *)
Definition _toggle_theme (c : config_data) : config_data :=
  let current_theme := theme c in
  let new_theme := if String.eqb current_theme "light" then "dark" else "light" in
  set_theme new_theme c.

End Config.

(** ** [_run_c_cpp]: the compile command *)

Module Compile.

(** The text before the last [sep] of [s], if [sep] occurs. *)
Fixpoint before_last (sep : ascii) (s : string) : option string :=
  match s with
  | EmptyString => None
  | String c r =>
      match before_last sep r with
      | Some h => Some (String c h)
      | None => if char_eqb c sep then Some EmptyString else None
      end
  end.

(** [s.rsplit(".", 1)[0]] *)
Definition rsplit_dot_head (s : string) : string :=
  default s (before_last "."%char s).

Definition is_cpp (file_path : string) : bool :=
  endswith file_path ".cpp" || endswith file_path ".cc" || endswith file_path ".cxx".

(** [compiler]: [None] is Python's [None]. *)
Definition compiler (c : Config.config_data) (file_path : string) : option string :=
  let gcc_path := Config.gcc_path c in
  if is_cpp file_path then
    match gcc_path with
    | Some g => if String.eqb g "gcc" then Some "g++" else gcc_path
    | None => gcc_path
    end
  else gcc_path.

(** [exe_path]; [nt] is [os.name == "nt"]. *)
Definition exe_path (nt : bool) (file_path : string) : string :=
  String.append (rsplit_dot_head file_path) (if nt then ".exe" else EmptyString).

(** [compile_cmd = [compiler, file_path, "-o", exe_path, "-g"]] *)
Definition compile_cmd (c : Config.config_data) (nt : bool) (file_path : string)
    : list (option string) :=
  [compiler c file_path; Some file_path; Some "-o"; Some (exe_path nt file_path); Some "-g"].

End Compile.

(** ** [_toggle_breakpoint] *)

Module Breakpoints.

(** The call made on the editor's ["breakpoint"] tag for the line. *)
Inductive tag_call : Type :=
| TagAdd (line_num : nat)
| TagRemove (line_num : nat).

(** [self.breakpoints] maps a file path ([None] for a tab never saved) to
    its set of line numbers; [line_num] is the line of the cursor. *)
Definition _toggle_breakpoint (breakpoints : gmap (option string) (gset nat))
    (file_path : option string) (line_num : nat)
    : gmap (option string) (gset nat) * tag_call :=
  let breakpoints :=
    match breakpoints !! file_path with
    | None => <[file_path := ∅]> breakpoints
    | Some _ => breakpoints
    end in
  let lines := default ∅ (breakpoints !! file_path) in
  if decide (line_num ∈ lines)
  then (<[file_path := lines ∖ {[ line_num ]}]> breakpoints, TagRemove line_num)
  else (<[file_path := lines ∪ {[ line_num ]}]> breakpoints, TagAdd line_num).

(** [self.breakpoints.get(file_path, set())] *)
Definition lines_of (breakpoints : gmap (option string) (gset nat))
    (file_path : option string) : gset nat :=
  default ∅ (breakpoints !! file_path).

End Breakpoints.

(** ** [_quick_find] *)

Module QuickFind.

(** What a call does: nothing (empty query), select a match and move the
    cursor behind it, or report that nothing was found. *)
Inductive outcome : Type :=
| Ignored
| Selected (start_idx end_idx : nat)
| NotFound.

(** [insert] is the offset of the cursor in the widget's text; the text
    searched is [editor.get(start_pos, "end")]. *)
Definition _quick_find (find_var : string) (content : string) (insert : nat) : outcome :=
  let find_text := strip find_var in
  if String.eqb find_text EmptyString then Ignored
  else
    let start_pos := insert in
    let text := Highlight.drop_chars start_pos (Highlight.widget_text content) in
    match Highlight.find find_text text with
    | Some pos => Selected (start_pos + pos) (start_pos + (pos + len find_text))
    | None => NotFound
    end.

(** [value] occurs in [text] at offset [p]. *)
Definition occurs_at (value text : string) (p : nat) : Prop :=
  p <= len text /\ String.prefix value (Highlight.drop_chars p text) = true.

End QuickFind.

(** ** Region lists described directly *)

(** The def and class headers of a Python text, numbered from [i]. *)
Fixpoint headers (i : nat) (lines : list string) : list (string * nat) :=
  match lines with
  | [] => []
  | line :: rest =>
      (if startswith (strip line) "class " then [("class", i)]
       else if startswith (strip line) "def " then [("function", i)]
       else [])
      ++ headers (S i) rest
  end.

(** A line that takes the third branch of the Python scan: it ends in a
    colon and is neither a header nor a comment. *)
Definition is_block_line (line : string) : bool :=
  negb (startswith (strip line) "class ") && negb (startswith (strip line) "def ")
  && endswith (strip line) ":" && negb (startswith (strip line) "#").

(** ** Bounds and types of regions *)

Definition region_types : list string := ["class"; "function"; "block"].

(** A stack entry made on a line up to [n]. *)
Definition entry_upto (n : nat) (ty : string) (line : nat) : Prop :=
  In ty region_types /\ 1 <= line <= n.

(** A region of a text of [n] lines. *)
Definition region_within (n : nat) (r : region) : Prop :=
  In (region_type r) region_types
  /\ 1 <= region_start r /\ region_start r <= region_end r /\ region_end r <= n.

Definition brace_within (n : nat) (st : Brace.state) : Prop :=
  Forall (fun e : string * nat => entry_upto n e.1 e.2) (Brace.brace_stack st)
  /\ Forall (region_within n) (Brace.fold_regions st).

(** No line feed in [s]. *)
Definition no_lf (s : string) : Prop := all_chars (is_not [LF]) s = true.

(** ** [_on_return] *)

Module AutoIndent.

(** The lines of the text and the insertion cursor, as Tk counts them:
    lines from 1, columns from 0. *)
Record buffer : Type := mk_buffer {
  lines : list string;
  line : nat;
  col : nat
}.

(** The text of line [l]. *)
Definition line_at (b : buffer) (l : nat) : string :=
  default EmptyString (lines b !! (l - 1)).

(** [editor.insert("insert", "\n")]: the line of the cursor is cut at the
    cursor, which moves to the start of the new line. *)
Definition insert_newline (b : buffer) : buffer :=
  let cur := line_at b (line b) in
  {| lines := take (line b - 1) (lines b)
              ++ [upto cur (col b); Highlight.drop_chars (col b) cur]
              ++ drop (line b) (lines b);
     line := S (line b);
     col := 0 |}.

(** [editor.insert("insert", chars)] for [chars] without a line feed: the
    cursor ends behind the inserted text. *)
Definition insert_text (chars : string) (b : buffer) : buffer :=
  {| lines := alter (fun l => String.append (upto l (col b))
                                (String.append chars (Highlight.drop_chars (col b) l)))
                (line b - 1) (lines b);
     line := line b;
     col := col b + len chars |}.

(** The group of the match of [indent_pattern = ^ ( \s* )] at the start
    of [s]: its longest prefix of white space. *)
Fixpoint leading_space (s : string) : string :=
  match s with
  | String c r => if isspace c then String c (leading_space r) else EmptyString
  | EmptyString => EmptyString
  end.

(** The line that the index ["insert-2l"] is on: two lines up, or the
    first line when there are fewer than two lines above the cursor. *)
Definition two_lines_up (b : buffer) : nat := Nat.max 1 (line b - 2).

Definition _on_return (b : buffer) : buffer :=
  let b := insert_newline b in
  let line := upto (line_at b (line b)) (col b) in   (* get("insert linestart", "insert") *)
  let indent := leading_space line in
  let b := insert_text indent b in
  let prev_line := line_at b (two_lines_up b) in
  if endswith (rstrip prev_line) ":" then insert_text "    " b else b.

End AutoIndent.

(** The last character of a string. *)
Fixpoint last_char (s : string) : option ascii :=
  match s with
  | EmptyString => None
  | String c EmptyString => Some c
  | String _ r => last_char r
  end.

(** ** The tags that result from a list of [tag_add] calls *)

Module Tags.




End Tags.

(** ** String literals by the lexical rules of C *)

Module CLex.




End CLex.

(** * Properties *)

(** ** Evaluation on small inputs *)

Example split_lines_two :
  split_lines ("a" ++ nl ++ "b" ++ nl) = ["a"; "b"; EmptyString].
Proof. reflexivity. Qed.

Example analyze_def_pass :
  analyze ("def foo():" ++ nl ++ "    pass" ++ nl) "a.py" = Some [("function", 1, 3)].
Proof. vm_compute. reflexivity. Qed.

Example signature_matches : Re.search Re.signature "void f()" = true.
Proof. vm_compute. reflexivity. Qed.

Example signature_needs_parens : Re.search Re.signature "struct S" = false.
Proof. vm_compute. reflexivity. Qed.

Example fold_mark_name : Editor.fold_mark 12 = "fold_12".
Proof. vm_compute. reflexivity. Qed.

Example closing_order_python :
  analyze ("def f():" ++ nl ++ "  if x:" ++ nl ++ "    y" ++ nl ++ "  if z:" ++ nl ++ "    w" ++ nl) "m.py"
  = Some [("block", 2, 4); ("function", 1, 6); ("block", 4, 6)].
Proof. vm_compute. reflexivity. Qed.

(** ** File types *)

Lemma unsupported_each filepath :
  unsupported filepath ->
  endswith filepath ".py" = false /\ endswith filepath ".c" = false /\
  endswith_any filepath [".cpp"; ".cc"; ".cxx"; ".h"; ".hpp"] = false /\
  endswith_any filepath [".c"; ".cpp"; ".h"] = false.
Proof.
  unfold unsupported, supported_extensions, endswith_any. cbn [existsb].
  intros H.
  repeat (apply orb_false_elim in H; destruct H as [? H]).
  repeat split; cbn [existsb]; repeat (apply orb_false_intro); auto.
Qed.

(** C9. For a file path that ends in none of the supported extensions the
    tagger adds no tag and the analyzer yields no region: with a non-empty
    path it stores the empty list for the editor, with the empty path it
    returns before computing or storing anything. *)
Theorem unsupported_file_type_noop :
  forall (avail : bool) (lex : string -> Highlight.lexer -> option (list Highlight.token))
         (store : gmap nat (list region)) (editor : nat) (content filepath : string),
    unsupported filepath ->
    Highlight._apply_syntax_highlight avail lex content filepath = []
    /\ default [] (analyze content filepath) = []
    /\ (filepath <> EmptyString ->
        analyze content filepath = Some []
        /\ regions_of (_analyze_code_structure store editor content filepath) editor = [])
    /\ (filepath = EmptyString ->
        _analyze_code_structure store editor content filepath = store).
Proof.
  intros avail lex store editor content filepath Hu.
  destruct (unsupported_each filepath Hu) as (Hpy & Hc & Hcpp & Hcs).
  assert (Han : filepath <> EmptyString -> analyze content filepath = Some []).
  { intros Hne. unfold analyze.
    destruct (String.eqb_spec filepath EmptyString) as [->|_]; [congruence|].
    now rewrite Hpy, Hcs. }
  split; [|split; [|split]].
  - unfold Highlight._apply_syntax_highlight, Highlight.select_lexer.
    rewrite Hpy, Hc, Hcpp. now destruct avail.
  - destruct (String.eqb_spec filepath EmptyString) as [->|Hne].
    + reflexivity.
    + now rewrite (Han Hne).
  - intros Hne. split; [auto|].
    unfold _analyze_code_structure, regions_of. rewrite (Han Hne).
    now rewrite lookup_insert_eq.
  - intros ->. reflexivity.
Qed.

Lemma unsupported_file_type_noop_witness :
  unsupported "notes.txt"
  /\ Highlight._apply_syntax_highlight true Inputs.call_lex "foo(foo)" "notes.txt" = []
  /\ regions_of (_analyze_code_structure ∅ 0 Inputs.lone_header "notes.txt") 0 = [].
Proof.
  assert (Hu : unsupported "notes.txt") by (vm_compute; reflexivity).
  destruct (unsupported_file_type_noop true Inputs.call_lex ∅ 0 Inputs.lone_header "notes.txt" Hu)
    as (_ & _ & Hs & _).
  destruct (unsupported_file_type_noop true Inputs.call_lex ∅ 0 "foo(foo)" "notes.txt" Hu)
    as (Ht & _).
  split; [exact Hu|]. split; [exact Ht|].
  apply Hs. discriminate.
Defined.

(** ** The brace signature heuristic (C7) *)

(** On line 1 there is no previous line: only a keyword in front of the
    brace on the same line can make it an opener. *)
Lemma opens_block_first_line lines line j :
  Brace.opens_block lines 1 line j = existsb (contains (upto line j)) Brace.keywords.
Proof.
  unfold Brace.opens_block, Brace.prev_lines, slice. cbn [Nat.sub firstn app join String.concat].
  change (Re.search Re.signature EmptyString) with false.
  now rewrite orb_false_r.
Qed.

(** A brace on the line of the signature is not an opener. *)
Lemma kr_brace_not_recognised :
  analyze Inputs.brace_same_line "f.c" <> Some [("block", 1, 3)].
Proof. vm_compute. discriminate. Qed.

(** C7, amended. The signature heuristic looks at the line before the
    brace only: for [void f() {] on one line the analyzer returns no
    region, and with the brace on the next line it returns exactly one
    block region, spanning lines 2 to 4. *)
Theorem signature_heuristic_previous_line :
  analyze Inputs.brace_same_line "f.c" = Some []
  /\ analyze Inputs.brace_next_line "f.c" = Some [("block", 2, 4)]
  /\ (forall lines j, Brace.opens_block lines 1 "void f() {" j = false).
Proof.
  split; [vm_compute; reflexivity|]. split; [vm_compute; reflexivity|].
  intros lines j. rewrite opens_block_first_line.
  do 11 (destruct j as [|j]; [vm_compute; reflexivity|]).
  vm_compute. reflexivity.
Qed.

(** ** Regions left open at the end of the input (C8, C4) *)

(** With the final newline the two regions do not end at line 3. *)
Lemma class_regions_end_at_line_count :
  analyze Inputs.class_with_method "m.py" <> Some [("class", 1, 3); ("function", 2, 3)].
Proof. vm_compute. discriminate. Qed.

(** C8, amended. For [class C: / def m(self): / pass] with its final
    newline the analyzer returns exactly two nested regions, class 1 to 4
    and function 2 to 4, the class first: the text after the last newline
    is a fourth, empty line and open entries are closed at the number of
    lines.  Without the final newline the regions end at line 3. *)
Theorem class_then_method_regions :
  analyze Inputs.class_with_method "m.py" = Some [("class", 1, 4); ("function", 2, 4)]
  /\ length (split_lines Inputs.class_with_method) = 4
  /\ analyze Inputs.class_with_method_no_final_newline "m.py"
     = Some [("class", 1, 3); ("function", 2, 3)].
Proof. repeat split; vm_compute; reflexivity. Qed.

(** C4. A header on the last line of a Python text is closed by the final
    loop on its own line: the region has start line = end line. *)
Theorem lone_header_region_not_proper :
  analyze Inputs.lone_header "m.py" = Some [("function", 1, 1)]
  /\ ~ proper (default [] (analyze Inputs.lone_header "m.py")).
Proof.
  split; [vm_compute; reflexivity|].
  change (default [] (analyze Inputs.lone_header "m.py")) with [("function", 1, 1) : region].
  intros H. apply Forall_inv in H. cbn in H. lia.
Qed.

(** ** Toggling a fold twice (C1) *)

(** C1. [_toggle_fold] raises [AttributeError] at [editor.mark_get] on
    every call, before the text or the marks are touched: no region is
    ever collapsed (no placeholder, no mark, no text set aside) or
    expanded.  After two calls the editor is as it was, because neither
    call does anything. *)
Theorem toggle_fold_raises :
  (forall (ed : editor) (start_line end_line : nat),
      let r1 := _toggle_fold ed start_line end_line in
      let r2 := _toggle_fold r1.1 start_line end_line in
      r1 = (ed, Raised "AttributeError") /\ r2 = (ed, Raised "AttributeError"))
  /\ analyze Inputs.small_function "m.py" = Some [("function", 1, 3)]
  /\ get_content (_toggle_fold (of_content Inputs.small_function) 1 3).1
     = Inputs.small_function
  /\ marks (_toggle_fold (of_content Inputs.small_function) 1 3).1 = ∅.
Proof.
  split; [|repeat split; vm_compute; reflexivity].
  intros ed start_line end_line. split; reflexivity.
Qed.

Lemma append_empty_r (s : string) : s ++ EmptyString = s.
Proof.
  induction s as [|c s IH]; [reflexivity|].
  change (String c s ++ EmptyString) with (String c (s ++ EmptyString)).
  now rewrite IH.
Qed.

(** ** One iteration of the character loop *)

Section Step.

Variable lines : list string.
Variable i : nat.

(** An invariant of every iteration is an invariant of the scan of a
    line, wherever the scan starts. *)
Lemma scan_chars_inv (P : Brace.state -> Prop) :
  (forall line j c next st, P st -> P (Brace.step lines i line j c next st).1) ->
  forall rest line j st, P st -> P (Brace.scan_chars lines i line j rest st).
Proof.
  intros Hstep rest.
  assert (H : forall n rest, len rest <= n ->
            forall line j st, P st -> P (Brace.scan_chars lines i line j rest st)).
  { unfold len. induction n as [|n IH]; intros [|c r] Hn line j st Hst;
      cbn [String.length] in Hn; try lia; auto.
    cbn [Brace.scan_chars].
    specialize (Hstep line j c (Brace.head_char r) st Hst).
    destruct (Brace.step lines i line j c (Brace.head_char r) st) as [st' [k|]];
      cbn in Hstep; auto.
    destruct k as [|[|[|k]]]; try (apply IH; [lia|assumption]).
    destruct r as [|c2 r2]; auto.
    apply IH; [cbn [String.length] in Hn; lia|assumption]. }
  intros line j st. apply (H (len rest)). lia.
Qed.

(** The escape flag is looked at before anything else. *)
Lemma step_escaped line j c next st :
  Brace.escape_next st = true ->
  Brace.step lines i line j c next st = (Brace.set_escape_next false st, Brace.Advance 1).
Proof. intros H. unfold Brace.step. now rewrite H. Qed.

Lemma step_backslash line j next st :
  Brace.escape_next st = false ->
  Brace.step lines i line j BS next st = (Brace.set_escape_next true st, Brace.Advance 1).
Proof. intros H. unfold Brace.step. now rewrite H. Qed.


(** A character other than a quote or a backslash leaves string mode
    as it is. *)
Lemma step_in_string_plain line j c next st :
  Brace.in_string st = true -> Brace.in_comment st = false ->
  Brace.escape_next st = false ->
  is_not [DQ; BS] c = true ->
  Brace.step lines i line j c next st = (st, Brace.Advance 1).
Proof.
  intros Hs Hc He Hp. unfold is_not in Hp. cbn [existsb] in Hp.
  rewrite orb_false_r in Hp. apply negb_true_iff, orb_false_elim in Hp.
  destruct Hp as [Hq Hb].
  unfold Brace.step. rewrite Hs, Hc, He, Hq, Hb. cbn [negb andb].
  now rewrite !andb_false_r.
Qed.

(** A stretch without quote and backslash is passed over in string
    mode without any change of state. *)
Lemma scan_in_string_prefix body :
  all_chars (is_not [DQ; BS]) body = true ->
  forall rest line j st,
    Brace.in_string st = true -> Brace.in_comment st = false ->
    Brace.escape_next st = false ->
    Brace.scan_chars lines i line j (body ++ rest) st
    = Brace.scan_chars lines i line (j + len body) rest st.
Proof.
  induction body as [|c r IH]; intros Hall rest line j st Hs Hc He.
  - cbn. now rewrite Nat.add_0_r.
  - cbn [all_chars] in Hall. apply andb_prop in Hall as [Hp Hr].
    change (String c r ++ rest) with (String c (r ++ rest)).
    cbn [Brace.scan_chars]. rewrite step_in_string_plain by assumption.
    rewrite IH by assumption. f_equal. unfold len. cbn [String.length]. lia.
Qed.

(** Outside comments and strings a character other than a quote, a
    backslash or a slash advances by one and stays in normal mode. *)
Lemma step_normal_plain line j c st :
  normal_mode st -> is_not [DQ; BS; "/"%char] c = true ->
  exists st', (forall next, Brace.step lines i line j c next st = (st', Brace.Advance 1))
              /\ normal_mode st'.
Proof.
  intros (Hc & Hs & He) Hp. unfold is_not in Hp. cbn [existsb] in Hp.
  rewrite orb_false_r in Hp. apply negb_true_iff in Hp.
  apply orb_false_elim in Hp as [Hq Hp]. apply orb_false_elim in Hp as [Hb Hsl].
  assert (Hn : forall st', Brace.in_comment st' = Brace.in_comment st ->
              Brace.in_string st' = Brace.in_string st ->
              Brace.escape_next st' = Brace.escape_next st -> normal_mode st').
  { intros st' H1 H2 H3. unfold normal_mode. now rewrite H1, H2, H3. }
  unfold Brace.step. rewrite Hs, Hc, He, Hq, Hb, Hsl.
  cbn [negb andb].
  destruct (char_eqb c "{"%char).
  - destruct (Brace.opens_block lines i line j); eexists;
      (split; [intros next; now rewrite ?andb_false_r|]); now apply Hn.
  - destruct (char_eqb c "}"%char); eexists;
      (split; [intros next; now rewrite ?andb_false_r|]); apply Hn;
      unfold Brace.pop_brace; try reflexivity;
      destruct (Brace.brace_stack st) as [|[t l] rest]; reflexivity.
Qed.

(** A stretch without quote, backslash and slash, entered in normal
    mode, is scanned character by character and left in normal mode,
    whatever follows it. *)
Lemma scan_normal_prefix pre :
  all_chars (is_not [DQ; BS; "/"%char]) pre = true ->
  forall rest line j st, normal_mode st ->
    Brace.scan_chars lines i line j (pre ++ rest) st
    = Brace.scan_chars lines i line (j + len pre) rest
        (Brace.scan_chars lines i line j pre st)
    /\ normal_mode (Brace.scan_chars lines i line j pre st).
Proof.
  induction pre as [|c r IH]; intros Hall rest line j st Hn.
  - cbn. now rewrite Nat.add_0_r.
  - cbn [all_chars] in Hall. apply andb_prop in Hall as [Hp Hr].
    change (String c r ++ rest) with (String c (r ++ rest)).
    cbn [Brace.scan_chars].
    destruct (step_normal_plain line j c st Hn Hp) as (st1 & Hstep & Hn1).
    rewrite !Hstep.
    destruct (IH Hr rest line (j + 1) st1 Hn1) as [-> Hn2].
    split; [|assumption]. f_equal. unfold len. cbn [String.length]. lia.
Qed.

(** Opening and closing quote. *)
Lemma step_quote_opens line j next st :
  normal_mode st ->
  Brace.step lines i line j DQ next st = (Brace.set_in_string true st, Brace.Advance 1).
Proof. intros (Hc & Hs & He). unfold Brace.step. now rewrite He, Hc, Hs. Qed.



End Step.

(** ** Threading of the scanner state through the lines *)

Lemma scan_lines_app lines a b :
  forall i st,
    Brace.scan_lines lines i (a ++ b) st
    = Brace.scan_lines lines (i + length a) b (Brace.scan_lines lines i a st).
Proof.
  induction a as [|x a IH]; intros i st; cbn [app Brace.scan_lines length].
  - now rewrite Nat.add_0_r.
  - rewrite IH. f_equal. lia.
Qed.

(** Line [k+1] is entered with the state line [k] was left in: nothing is
    reset between two lines. *)
Lemma state_before_next lines k line :
  lines !! k = Some line ->
  Brace.state_before lines (S (S k))
  = Brace.scan_line lines (S k) line (Brace.state_before lines (S k)).
Proof.
  intros Hk. unfold Brace.state_before.
  replace (S (S k) - 1) with (S k) by lia. replace (S k - 1) with k by lia.
  change (firstn (S k) lines) with (take (S k) lines).
  rewrite (take_S_r lines k line Hk), scan_lines_app.
  cbn [Brace.scan_lines]. f_equal.
  change (firstn k lines) with (take k lines).
  rewrite length_take. apply lookup_lt_Some in Hk. lia.
Qed.

(** ** Strings in the brace grammar (C5, C6) *)

(** After a line with an unclosed quote the next line is entered in string
    mode, and the struct that follows is not seen. *)
Lemma unterminated_string_carries_over :
  let lines := [String.append dq "abc"; "struct A {"; "}"] in
  Brace.in_string (Brace.state_before lines 1) = false
  /\ Brace.in_string (Brace.state_before lines 2) <> false
  /\ Brace.analyze lines = []
  /\ Brace.analyze ["struct A {"; "}"] = [("block", 1, 2)].
Proof. cbv zeta. repeat split; vm_compute; try reflexivity. discriminate. Qed.

(** C5, amended. String mode is carried from one line to the next: when
    a line entered in normal mode opens a string with a double quote and
    has no further quote or backslash, the following line is entered in
    string mode. *)
Theorem string_mode_carried_to_next_line :
  forall (lines : list string) (k : nat) (pre body : string),
    lines !! k = Some (pre ++ String DQ body) ->
    normal_mode (Brace.state_before lines (S k)) ->
    all_chars (is_not [DQ; BS; "/"%char]) pre = true ->
    all_chars (is_not [DQ; BS]) body = true ->
    Brace.in_string (Brace.state_before lines (S (S k))) = true.
Proof.
  intros lines k pre body Hk Hn Hpre Hbody.
  rewrite (state_before_next lines k _ Hk). unfold Brace.scan_line.
  destruct (scan_normal_prefix lines (S k) pre Hpre (String DQ body)
              (pre ++ String DQ body) 0 _ Hn) as [-> Hn1].
  cbn [Brace.scan_chars]. rewrite step_quote_opens by exact Hn1.
  destruct Hn1 as (Hc & Hs & He).
  rewrite <- (append_empty_r body) at 2.
  rewrite (scan_in_string_prefix lines (S k) body Hbody); [reflexivity|reflexivity|exact Hc|exact He].
Qed.

Lemma string_mode_carried_to_next_line_witness :
  let lines := ["char* s = " ++ dq ++ "abc"; "struct A {"; "}"] in
  lines !! 0 = Some ("char* s = " ++ String DQ "abc")
  /\ Brace.in_string (Brace.state_before lines 2) = true.
Proof.
  cbv zeta. split; [reflexivity|].
  apply (string_mode_carried_to_next_line _ 0 "char* s = " "abc").
  - reflexivity.
  - vm_compute. auto.
  - vm_compute. reflexivity.
  - vm_compute. reflexivity.
Defined.



(** ** The backslash escape (C10) *)

(** C10. The escape is independent of the mode: an unskipped backslash
    sets [escape_next] and nothing else, whatever [in_comment] and
    [in_string] are; with [escape_next] set the next character examined
    is passed over whatever it is; a backslash examined as the last
    character of a line leaves the flag set at the end of the line, and a
    line entered with the flag set has its first character passed over. *)
Theorem backslash_escape_in_every_mode :
  (forall lines i line j next st,
      Brace.escape_next st = false ->
      Brace.step lines i line j BS next st = (Brace.set_escape_next true st, Brace.Advance 1))
  /\ (forall lines i line j char next st,
         Brace.escape_next st = true ->
         Brace.step lines i line j char next st
         = (Brace.set_escape_next false st, Brace.Advance 1))
  /\ (forall lines i line j st,
         Brace.escape_next st = false ->
         Brace.scan_chars lines i line j (String BS EmptyString) st
         = Brace.set_escape_next true st)
  /\ (forall lines i char rest more st,
         Brace.escape_next st = true ->
         Brace.scan_lines lines i (String char rest :: more) st
         = Brace.scan_lines lines (S i) more
             (Brace.scan_chars lines i (String char rest) 1 rest
                (Brace.set_escape_next false st))).
Proof.
  split; [|split; [|split]].
  - intros. now apply step_backslash.
  - intros. now apply step_escaped.
  - intros lines i line j st He. cbn [Brace.scan_chars].
    now rewrite step_backslash.
  - intros lines i char rest more st He.
    cbn [Brace.scan_lines]. unfold Brace.scan_line. cbn [Brace.scan_chars].
    now rewrite step_escaped.
Qed.

Lemma backslash_escape_in_every_mode_witness :
  let in_comment_state := Brace.set_in_comment true Brace.initial in
  let lines := [String.append "struct A " (String BS EmptyString); "{ struct B {"; "}"] in
  Brace.escape_next in_comment_state = false
  /\ Brace.step lines 1 "x" 0 BS None in_comment_state
     = (Brace.set_escape_next true in_comment_state, Brace.Advance 1)
  /\ Brace.escape_next (Brace.state_before lines 2) = true
  /\ Brace.scan_lines lines 2 ["{ struct B {"; "}"] (Brace.state_before lines 2)
     = Brace.scan_lines lines 3 ["}"]
         (Brace.scan_chars lines 2 "{ struct B {" 1 " struct B {"
            (Brace.set_escape_next false (Brace.state_before lines 2))).
Proof.
  cbv zeta.
  destruct backslash_escape_in_every_mode as (Hbs & _ & _ & Hnext).
  split; [reflexivity|]. split; [|split].
  - apply Hbs. reflexivity.
  - vm_compute. reflexivity.
  - apply Hnext. vm_compute. reflexivity.
Defined.

(** ** Order of the region list (C3) *)

Lemma sorted_upto_nil n : sorted_upto n [].
Proof. split; constructor. Qed.

Lemma sorted_upto_mono n m regions :
  n <= m -> sorted_upto n regions -> sorted_upto m regions.
Proof.
  intros Hnm [Hs Hb]. split; [assumption|].
  eapply Forall_impl; [exact Hb|]. cbn. intros r Hr. lia.
Qed.

Lemma strongly_sorted_snoc {A} (R : A -> A -> Prop) l y :
  StronglySorted R l -> Forall (fun x => R x y) l -> StronglySorted R (l ++ [y]).
Proof.
  induction 1 as [|x l Hs IH Hx]; intros Hy; cbn [app].
  - repeat constructor.
  - apply Forall_cons_1 in Hy as [Hxy Hy]. constructor; [auto|].
    apply Forall_app. split; [assumption|]. repeat constructor. assumption.
Qed.

(** A region that ends on the current line may be appended. *)
Lemma sorted_upto_snoc n regions ty start :
  sorted_upto n regions -> sorted_upto n (regions ++ [(ty, start, n)]).
Proof.
  intros [Hs Hb]. split.
  - apply strongly_sorted_snoc; [assumption|]. exact Hb.
  - apply Forall_app. split; [assumption|]. repeat constructor.
Qed.

Lemma sorted_upto_close_remaining n stack :
  forall regions, sorted_upto n regions ->
    sorted_upto n (regions ++ map (fun e : Indent.entry => (e.1.1, e.1.2, n)) stack).
Proof.
  induction stack as [|e stack IH]; intros regions H; cbn [map].
  - now rewrite app_nil_r.
  - rewrite cons_middle.
    rewrite app_assoc. apply IH. now apply sorted_upto_snoc.
Qed.

Lemma close_deeper_sorted i current_indent stack :
  forall regions, sorted_upto i regions ->
    sorted_upto i (Indent.close_deeper i current_indent stack regions).2.
Proof.
  induction stack as [|[[ty start] ind] stack IH]; intros regions H;
    cbn [Indent.close_deeper]; [exact H|].
  destruct (current_indent <=? ind); [|exact H].
  apply IH. destruct (start <? i); [now apply sorted_upto_snoc|exact H].
Qed.

Lemma indent_scan_line_sorted i line st :
  sorted_upto i st.2 -> sorted_upto i (Indent.scan_line i line st).2.
Proof.
  destruct st as [stack regions]. cbn [snd]. intros H. unfold Indent.scan_line.
  destruct (startswith (strip line) "class "); [exact H|].
  destruct (startswith (strip line) "def "); [exact H|].
  destruct (endswith (strip line) ":" && negb (startswith (strip line) "#")); [|exact H].
  pose proof (close_deeper_sorted i (Indent.indent_of line) stack regions H) as H'.
  destruct (Indent.close_deeper i (Indent.indent_of line) stack regions). exact H'.
Qed.

Lemma indent_scan_lines_sorted lines :
  forall n st, sorted_upto n st.2 ->
    sorted_upto (n + length lines) (Indent.scan_lines (S n) lines st).2.
Proof.
  induction lines as [|line lines IH]; intros n st H; cbn [Indent.scan_lines length].
  - now rewrite Nat.add_0_r.
  - replace (n + S (length lines)) with (S n + length lines) by lia.
    apply IH, indent_scan_line_sorted. eapply sorted_upto_mono; [|exact H]. lia.
Qed.

Lemma indent_analyze_sorted lines :
  sorted_upto (length lines) (Indent.analyze lines).
Proof.
  unfold Indent.analyze.
  pose proof (indent_scan_lines_sorted lines 0 ([], []) (sorted_upto_nil 0)) as H.
  destruct (Indent.scan_lines 1 lines ([], [])) as [stack regions].
  apply sorted_upto_close_remaining. exact H.
Qed.

Lemma brace_step_sorted lines i line j c next st :
  sorted_upto i (Brace.fold_regions st) ->
  sorted_upto i (Brace.fold_regions (Brace.step lines i line j c next st).1).
Proof.
  intros H. unfold Brace.step.
  repeat match goal with
         | |- context [if ?b then _ else _] => destruct b
         end; cbn [fst Brace.fold_regions Brace.set_escape_next Brace.set_in_string
                     Brace.set_in_comment Brace.push_brace]; try exact H.
  unfold Brace.pop_brace. destruct (Brace.brace_stack st) as [|[ty start] rest]; [exact H|].
  cbn [Brace.fold_regions]. destruct (start <? i); [now apply sorted_upto_snoc|exact H].
Qed.

Lemma brace_scan_lines_sorted lines todo :
  forall n st, sorted_upto n (Brace.fold_regions st) ->
    sorted_upto (n + length todo) (Brace.fold_regions (Brace.scan_lines lines (S n) todo st)).
Proof.
  induction todo as [|line todo IH]; intros n st H; cbn [Brace.scan_lines length].
  - now rewrite Nat.add_0_r.
  - replace (n + S (length todo)) with (S n + length todo) by lia.
    apply IH. unfold Brace.scan_line.
    apply (scan_chars_inv lines (S n) (fun st => sorted_upto (S n) (Brace.fold_regions st))).
    + intros. now apply brace_step_sorted.
    + eapply sorted_upto_mono; [|exact H]. lia.
Qed.

Lemma brace_analyze_sorted lines :
  sorted_upto (length lines) (Brace.analyze lines).
Proof.
  apply (brace_scan_lines_sorted lines lines 0 Brace.initial), sorted_upto_nil.
Qed.

(** Of two nested structs the inner one closes first and comes first. *)
Lemma regions_not_sorted_outer_first :
  analyze Inputs.nested_structs "a.h" = Some [("block", 2, 3); ("block", 1, 4)]
  /\ ~ Sorted outer_first (default [] (analyze Inputs.nested_structs "a.h")).
Proof.
  split; [vm_compute; reflexivity|].
  change (default [] (analyze Inputs.nested_structs "a.h"))
    with [("block", 2, 3) : region; ("block", 1, 4)].
  intros H. apply Sorted_inv in H as [_ H]. apply HdRel_inv in H.
  unfold outer_first in H. cbn in H. lia.
Qed.

(** C3, amended. The analyzer returns the regions in the order in which
    they are closed: the list is sorted by end line ascending, and no
    region ends beyond the last line. *)
Theorem regions_sorted_by_end :
  forall (content filepath : string) (regions : list region),
    analyze content filepath = Some regions ->
    Sorted by_end regions
    /\ Forall (fun r => region_end r <= length (split_lines content)) regions.
Proof.
  intros content filepath regions. unfold analyze.
  destruct (String.eqb filepath EmptyString); [discriminate|].
  assert (Hgoal : forall rs, sorted_upto (length (split_lines content)) rs ->
            Sorted by_end rs
            /\ Forall (fun r => region_end r <= length (split_lines content)) rs).
  { intros rs [Hs Hb]. split; [now apply StronglySorted_Sorted|exact Hb]. }
  destruct (endswith filepath ".py").
  - intros [= <-]. apply Hgoal, indent_analyze_sorted.
  - destruct (endswith_any filepath [".c"; ".cpp"; ".h"]); intros [= <-]; apply Hgoal.
    + apply brace_analyze_sorted.
    + apply sorted_upto_nil.
Qed.

Lemma regions_sorted_by_end_witness :
  analyze Inputs.nested_structs "a.h" = Some [("block", 2, 3); ("block", 1, 4)]
  /\ Sorted by_end [("block", 2, 3) : region; ("block", 1, 4)].
Proof.
  assert (H : analyze Inputs.nested_structs "a.h" = Some [("block", 2, 3); ("block", 1, 4)])
    by (vm_compute; reflexivity).
  split; [exact H|].
  exact (proj1 (regions_sorted_by_end Inputs.nested_structs "a.h" _ H)).
Defined.

(** ** Regions closed inside the loops span more than one line *)

Lemma proper_snoc regions ty start i :
  proper regions -> start < i -> proper (regions ++ [(ty, start, i)]).
Proof.
  intros H Hlt. apply Forall_app. split; [exact H|]. repeat constructor. exact Hlt.
Qed.

Lemma close_deeper_proper i current_indent stack :
  forall regions, proper regions ->
    proper (Indent.close_deeper i current_indent stack regions).2.
Proof.
  induction stack as [|[[ty start] ind] stack IH]; intros regions H;
    cbn [Indent.close_deeper]; [exact H|].
  destruct (current_indent <=? ind); [|exact H].
  apply IH. destruct (Nat.ltb_spec start i); [now apply proper_snoc|exact H].
Qed.

(** The regions closed by the Python line loop, before the final loop. *)
Lemma indent_loop_regions_proper lines :
  forall i st, proper st.2 -> proper (Indent.scan_lines i lines st).2.
Proof.
  induction lines as [|line lines IH]; intros i [stack regions] H;
    cbn [Indent.scan_lines]; [exact H|].
  apply IH. cbn [snd] in H. unfold Indent.scan_line.
  destruct (startswith (strip line) "class "); [exact H|].
  destruct (startswith (strip line) "def "); [exact H|].
  destruct (endswith (strip line) ":" && negb (startswith (strip line) "#")); [|exact H].
  pose proof (close_deeper_proper i (Indent.indent_of line) stack regions H) as H'.
  destruct (Indent.close_deeper i (Indent.indent_of line) stack regions). exact H'.
Qed.

Lemma brace_step_proper lines i line j c next st :
  proper (Brace.fold_regions st) ->
  proper (Brace.fold_regions (Brace.step lines i line j c next st).1).
Proof.
  intros H. unfold Brace.step.
  repeat match goal with
         | |- context [if ?b then _ else _] => destruct b
         end; cbn [fst Brace.fold_regions Brace.set_escape_next Brace.set_in_string
                     Brace.set_in_comment Brace.push_brace]; try exact H.
  unfold Brace.pop_brace. destruct (Brace.brace_stack st) as [|[ty start] rest]; [exact H|].
  cbn [Brace.fold_regions]. destruct (Nat.ltb_spec start i); [now apply proper_snoc|exact H].
Qed.

(** Every region of the brace grammar spans more than one line. *)
Lemma brace_regions_proper lines : proper (Brace.analyze lines).
Proof.
  unfold Brace.analyze, Brace.final_state.
  assert (H : forall todo i st, proper (Brace.fold_regions st) ->
            proper (Brace.fold_regions (Brace.scan_lines lines i todo st))).
  { induction todo as [|line todo IH]; intros i st Hst; cbn [Brace.scan_lines]; [exact Hst|].
    apply IH. unfold Brace.scan_line.
    apply (scan_chars_inv lines i (fun st => proper (Brace.fold_regions st))); [|exact Hst].
    intros. now apply brace_step_proper. }
  apply H. constructor.
Qed.

(** ** Tagging by text search (C2) *)

Section Search.

Import Highlight.

Lemma drop_chars_0 s : drop_chars 0 s = s.
Proof. now destruct s. Qed.

Lemma drop_chars_add a b : forall s, drop_chars (a + b) s = drop_chars b (drop_chars a s).
Proof.
  induction a as [|a IH]; intros s; cbn [Nat.add].
  - now rewrite drop_chars_0.
  - destruct s as [|c s]; cbn [drop_chars]; [now destruct b|apply IH].
Qed.

(** What [find] returns is the offset of an occurrence. *)
Lemma find_occurs value : forall text p,
  find value text = Some p -> String.prefix value (drop_chars p text) = true.
Proof.
  induction text as [|c r IH]; intros p; cbn [find].
  - destruct (String.prefix value EmptyString) eqn:E; [|discriminate].
    intros [= <-]. exact E.
  - destruct (String.prefix value (String c r)) eqn:E.
    + intros [= <-]. exact E.
    + destruct (find value r) as [q|] eqn:F; [|discriminate].
      intros [= <-]. cbn [drop_chars]. now apply IH.
Qed.

Lemma search_occurs value text start p :
  search value text start = Some p ->
  start <= p /\ String.prefix value (drop_chars p text) = true.
Proof.
  unfold search. destruct (start <=? len text); [|discriminate].
  destruct (find value (drop_chars start text)) as [q|] eqn:F; [|discriminate].
  intros [= <-]. split; [lia|]. rewrite drop_chars_add. now apply find_occurs.
Qed.



(** Every tag the loop adds is the token's tag on an occurrence of the
    token's text. *)
Lemma tag_loop_sound fuel tag value text : forall start added op,
  In op (tag_loop fuel tag value text start added) ->
  In op added
  \/ exists p, op = (tag, p, p + len value)
               /\ String.prefix value (drop_chars p text) = true.
Proof.
  induction fuel as [|fuel IH]; intros start added op; cbn [tag_loop]; [now left|].
  destruct (search value text start) as [pos|] eqn:S; [|now left].
  intros H. apply IH in H as [H|H]; [|now right].
  apply in_app_or in H as [H|[<-|[]]]; [now left|].
  right. exists pos. split; [reflexivity|]. now apply search_occurs in S.
Qed.


End Search.


(** * Further properties of the modelled code *)

(** ** Bounds and types of the regions *)

Lemma region_within_intro n ty s e :
  In ty region_types -> 1 <= s -> s <= e -> e <= n -> region_within n (ty, s, e).
Proof. unfold region_within. cbn. auto. Qed.

Lemma region_within_mono n m r : n <= m -> region_within n r -> region_within m r.
Proof. unfold region_within. intros ? (? & ? & ? & ?). repeat split; auto; lia. Qed.

Lemma entry_upto_mono n m ty line : n <= m -> entry_upto n ty line -> entry_upto m ty line.
Proof. unfold entry_upto. intros ? (? & ?). split; auto; lia. Qed.

Lemma close_deeper_within i current_indent stack :
  forall regions,
    Forall (fun e : Indent.entry => entry_upto i e.1.1 e.1.2) stack ->
    Forall (region_within i) regions ->
    Forall (fun e : Indent.entry => entry_upto i e.1.1 e.1.2)
      (Indent.close_deeper i current_indent stack regions).1
    /\ Forall (region_within i) (Indent.close_deeper i current_indent stack regions).2.
Proof.
  induction stack as [|[[ty start] ind] stack IH]; intros regions Hst Hr;
    cbn [Indent.close_deeper]; [split; assumption|].
  destruct (current_indent <=? ind); [|split; assumption].
  apply Forall_cons_1 in Hst as [[Hty Hb] Hst]. cbn [fst snd] in Hty, Hb.
  apply IH; [assumption|].
  destruct (Nat.ltb_spec start i); [|assumption].
  apply Forall_app. split; [assumption|]. constructor; [|constructor].
  apply region_within_intro; auto; lia.
Qed.

Lemma indent_scan_line_within n line st :
  Forall (fun e : Indent.entry => entry_upto n e.1.1 e.1.2) st.1 ->
  Forall (region_within n) st.2 ->
  Forall (fun e : Indent.entry => entry_upto (S n) e.1.1 e.1.2)
    (Indent.scan_line (S n) line st).1
  /\ Forall (region_within (S n)) (Indent.scan_line (S n) line st).2.
Proof.
  destruct st as [stack regions]. cbn [fst snd]. intros Hst Hr.
  assert (Hst' : Forall (fun e : Indent.entry => entry_upto (S n) e.1.1 e.1.2) stack).
  { eapply Forall_impl; [exact Hst|]. intros e. apply entry_upto_mono. lia. }
  assert (Hr' : Forall (region_within (S n)) regions).
  { eapply Forall_impl; [exact Hr|]. intros r. apply region_within_mono. lia. }
  assert (Hnew : forall ty ind stk, In ty region_types ->
            Forall (fun e : Indent.entry => entry_upto (S n) e.1.1 e.1.2) stk ->
            Forall (fun e : Indent.entry => entry_upto (S n) e.1.1 e.1.2)
              ((ty, S n, ind) :: stk)).
  { intros ty ind stk Hty H. constructor; [|exact H]. split; [exact Hty|cbn; lia]. }
  unfold Indent.scan_line.
  destruct (startswith (strip line) "class ").
  { split; [|exact Hr']. apply Hnew; [cbn; auto|exact Hst']. }
  destruct (startswith (strip line) "def ").
  { split; [|exact Hr']. apply Hnew; [cbn; auto|exact Hst']. }
  destruct (endswith (strip line) ":" && negb (startswith (strip line) "#"));
    [|split; assumption].
  pose proof (close_deeper_within (S n) (Indent.indent_of line) stack regions Hst' Hr')
    as [H1 H2].
  destruct (Indent.close_deeper (S n) (Indent.indent_of line) stack regions) as [s' r'].
  cbn [fst snd] in *. split; [|exact H2]. apply Hnew; [cbn; auto|exact H1].
Qed.

Lemma indent_scan_lines_within lines :
  forall n st,
    Forall (fun e : Indent.entry => entry_upto n e.1.1 e.1.2) st.1 ->
    Forall (region_within n) st.2 ->
    Forall (fun e : Indent.entry => entry_upto (n + length lines) e.1.1 e.1.2)
      (Indent.scan_lines (S n) lines st).1
    /\ Forall (region_within (n + length lines)) (Indent.scan_lines (S n) lines st).2.
Proof.
  induction lines as [|line lines IH]; intros n st Hst Hr; cbn [Indent.scan_lines length].
  - rewrite Nat.add_0_r. split; assumption.
  - replace (n + S (length lines)) with (S n + length lines) by lia.
    destruct (indent_scan_line_within n line st Hst Hr) as [H1 H2]. now apply IH.
Qed.

Lemma indent_analyze_within lines :
  Forall (region_within (length lines)) (Indent.analyze lines).
Proof.
  unfold Indent.analyze.
  destruct (indent_scan_lines_within lines 0 ([], [])) as [H1 H2]; [constructor..|].
  destruct (Indent.scan_lines 1 lines ([], [])) as [stack regions]. cbn [fst snd] in *.
  apply Forall_app. split; [exact H2|].
  unfold Indent.close_remaining. apply Forall_map, Forall_rev.
  eapply Forall_impl; [exact H1|]. intros [[ty start] ind] [Hty Hb].
  cbn [fst snd] in *. apply region_within_intro; auto; lia.
Qed.

Lemma brace_step_within lines n line j c next st :
  brace_within (S n) st -> brace_within (S n) (Brace.step lines (S n) line j c next st).1.
Proof.
  intros [Hst Hr]. unfold Brace.step.
  repeat match goal with
         | |- context [if ?b then _ else _] => destruct b
         end; cbn [fst]; try (split; assumption).
  - split; [|exact Hr]. cbn. constructor; [|exact Hst]. split; cbn; auto; lia.
  - unfold Brace.pop_brace. destruct (Brace.brace_stack st) as [|[ty start] rest] eqn:E;
      [split; [now rewrite E|exact Hr]|].
    apply Forall_cons_1 in Hst as [[Hty Hb] Hst]. cbn [fst snd] in Hty, Hb.
    split; cbn [Brace.brace_stack Brace.fold_regions]; [exact Hst|].
    destruct (Nat.ltb_spec start (S n)); [|exact Hr].
    apply Forall_app. split; [exact Hr|]. constructor; [|constructor].
    apply region_within_intro; auto; lia.
Qed.

Lemma brace_scan_lines_within lines todo :
  forall n st, brace_within n st ->
    brace_within (n + length todo) (Brace.scan_lines lines (S n) todo st).
Proof.
  induction todo as [|line todo IH]; intros n st H; cbn [Brace.scan_lines length].
  - now rewrite Nat.add_0_r.
  - replace (n + S (length todo)) with (S n + length todo) by lia.
    apply IH. unfold Brace.scan_line.
    apply (scan_chars_inv lines (S n) (brace_within (S n))).
    + intros. now apply brace_step_within.
    + destruct H as [H1 H2]. split.
      * eapply Forall_impl; [exact H1|]. intros e. apply entry_upto_mono. lia.
      * eapply Forall_impl; [exact H2|]. intros r. apply region_within_mono. lia.
Qed.

(** X1. Every region the analyzer stores has one of the three types, starts
    on a line of the text and ends on a line of the text not before its
    start. *)
Theorem regions_within_text :
  forall (content filepath : string) (regions : list region),
    analyze content filepath = Some regions ->
    Forall (region_within (last_line content)) regions.
Proof.
  intros content filepath regions. unfold analyze, last_line.
  destruct (String.eqb filepath EmptyString); [discriminate|].
  destruct (endswith filepath ".py").
  - intros [= <-]. apply indent_analyze_within.
  - destruct (endswith_any filepath [".c"; ".cpp"; ".h"]); intros [= <-]; [|constructor].
    apply (brace_scan_lines_within (split_lines content) (split_lines content) 0 Brace.initial).
    split; constructor.
Qed.

Lemma regions_within_text_witness :
  analyze Inputs.class_with_method "m.py" = Some [("class", 1, 4); ("function", 2, 4)]
  /\ Forall (region_within 4) [("class", 1, 4) : region; ("function", 2, 4)].
Proof.
  assert (H : analyze Inputs.class_with_method "m.py"
              = Some [("class", 1, 4); ("function", 2, 4)]) by (vm_compute; reflexivity).
  split; [exact H|].
  exact (regions_within_text Inputs.class_with_method "m.py" _ H).
Defined.

(** X2. Outside Python files every region spans more than one line: the
    brace grammar records a region only when the closing brace is on a
    later line than the opening one. *)
Theorem brace_file_regions_proper :
  forall (content filepath : string) (regions : list region),
    endswith filepath ".py" = false ->
    analyze content filepath = Some regions ->
    proper regions.
Proof.
  intros content filepath regions Hpy. unfold analyze. rewrite Hpy.
  destruct (String.eqb filepath EmptyString); [discriminate|].
  destruct (endswith_any filepath [".c"; ".cpp"; ".h"]); intros [= <-].
  - apply brace_regions_proper.
  - constructor.
Qed.

Lemma brace_file_regions_proper_witness :
  endswith "a.h" ".py" = false
  /\ proper [("block", 2, 3) : region; ("block", 1, 4)].
Proof.
  split; [reflexivity|].
  apply (brace_file_regions_proper Inputs.nested_structs "a.h"); vm_compute; reflexivity.
Defined.

(** ** Python headers are closed only by a block line or the end of the text *)

Lemma py_suffix_nonempty filepath :
  endswith filepath ".py" = true -> String.eqb filepath EmptyString = false.
Proof. destruct filepath; [discriminate|reflexivity]. Qed.

Lemma scan_lines_headers lines :
  Forall (fun line => is_block_line line = false) lines ->
  forall i stack regions,
    (Indent.scan_lines i lines (stack, regions)).2 = regions
    /\ map (fun e : Indent.entry => (e.1.1, e.1.2)) (rev (Indent.scan_lines i lines (stack, regions)).1)
       = (map (fun e : Indent.entry => (e.1.1, e.1.2)) (rev stack) ++ headers i lines)%list.
Proof.
  induction 1 as [|line lines Hb _ IH]; intros i stack regions;
    cbn [Indent.scan_lines headers].
  - now rewrite app_nil_r.
  - unfold Indent.scan_line. cbv beta iota zeta. unfold is_block_line in Hb.
    destruct (startswith (strip line) "class ").
    { destruct (IH (S i) (("class", i, Indent.indent_of line) :: stack) regions) as [E1 E2].
      split; [exact E1|]. etransitivity; [exact E2|].
      cbn [rev]. now rewrite map_app, <- app_assoc. }
    destruct (startswith (strip line) "def ").
    { destruct (IH (S i) (("function", i, Indent.indent_of line) :: stack) regions) as [E1 E2].
      split; [exact E1|]. etransitivity; [exact E2|].
      cbn [rev]. now rewrite map_app, <- app_assoc. }
    cbn [negb andb] in Hb. rewrite Hb. apply IH.
Qed.

(** X3. In a Python text without a block line (a line ending in a colon
    that is neither a def or class header nor a comment) no region is
    closed before the end: the analyzer returns one region per header, in
    the order of the headers, and every one of them ends at the last line,
    whatever follows the header. *)
Theorem headers_run_to_last_line :
  forall (content filepath : string),
    endswith filepath ".py" = true ->
    Forall (fun line => is_block_line line = false) (split_lines content) ->
    analyze content filepath
    = Some (map (fun h : string * nat => (h.1, h.2, last_line content))
              (headers 1 (split_lines content))).
Proof.
  intros content filepath Hpy Hnb. unfold analyze.
  rewrite (py_suffix_nonempty _ Hpy), Hpy. f_equal. unfold Indent.analyze.
  destruct (scan_lines_headers (split_lines content) Hnb 1 [] []) as [Hr Hs].
  destruct (Indent.scan_lines 1 (split_lines content) ([], [])) as [stack regions].
  cbn [fst snd] in Hr, Hs. subst regions. cbn [app rev map] in Hs |- *.
  unfold Indent.close_remaining, last_line. rewrite <- Hs, map_map. reflexivity.
Qed.

Lemma headers_run_to_last_line_witness :
  let content := "def a():" ++ nl ++ "  pass" ++ nl ++ "def b():" ++ nl ++ "  pass" in
  endswith "m.py" ".py" = true
  /\ analyze content "m.py" = Some [("function", 1, 4); ("function", 3, 4)].
Proof.
  cbv zeta. split; [reflexivity|].
  etransitivity; [apply headers_run_to_last_line|].
  - reflexivity.
  - vm_compute. repeat constructor.
  - vm_compute. reflexivity.
Defined.

(** ** Comments in the brace grammar *)

Section Comments.

Variable lines : list string.
Variable i : nat.

Lemma step_line_comment line j rest st :
  Brace.escape_next st = false -> Brace.in_string st = false ->
  Brace.scan_chars lines i line j (String "/" (String "/" rest)) st = st.
Proof.
  intros He Hs. cbn [Brace.scan_chars Brace.head_char].
  unfold Brace.step. rewrite He, Hs. reflexivity.
Qed.

Lemma step_in_comment_plain line j c next st :
  Brace.in_comment st = true -> Brace.escape_next st = false ->
  is_not [BS; "*"%char; "/"%char] c = true ->
  Brace.step lines i line j c next st = (st, Brace.Advance 1).
Proof.
  intros Hc He Hp. unfold is_not in Hp. cbn [existsb] in Hp.
  rewrite orb_false_r in Hp. apply negb_true_iff in Hp.
  apply orb_false_elim in Hp as [Hb Hp]. apply orb_false_elim in Hp as [Hst Hsl].
  unfold Brace.step. rewrite Hc, He, Hb, Hst, Hsl. cbn [negb andb].
  now rewrite !andb_false_r.
Qed.

Lemma scan_in_comment_prefix body :
  all_chars (is_not [BS; "*"%char; "/"%char]) body = true ->
  forall rest line j st,
    Brace.in_comment st = true -> Brace.escape_next st = false ->
    Brace.scan_chars lines i line j (body ++ rest) st
    = Brace.scan_chars lines i line (j + len body) rest st.
Proof.
  induction body as [|c r IH]; intros Hall rest line j st Hc He.
  - cbn. now rewrite Nat.add_0_r.
  - cbn [all_chars] in Hall. apply andb_prop in Hall as [Hp Hr].
    change (String c r ++ rest) with (String c (r ++ rest)).
    cbn [Brace.scan_chars]. rewrite step_in_comment_plain by assumption.
    rewrite IH by assumption. f_equal. unfold len. cbn [String.length]. lia.
Qed.

Lemma step_comment_opens line j st :
  normal_mode st ->
  Brace.step lines i line j "/"%char (Some "*"%char) st
  = (Brace.set_in_comment true st, Brace.Advance 2).
Proof. intros (Hc & Hs & He). unfold Brace.step. now rewrite He, Hs. Qed.

Lemma step_comment_closes line j st :
  normal_mode st ->
  Brace.step lines i line j "*"%char (Some "/"%char) (Brace.set_in_comment true st)
  = (st, Brace.Advance 2).
Proof.
  destruct st as [bs ic ins en fr]. intros (Hc & Hs & He). cbn in Hc, Hs, He. subst.
  reflexivity.
Qed.

End Comments.

(** X4. Whatever follows [//] on a line is not scanned: when the scanner
    reaches [//] outside a string with no escape pending, the state at the
    end of the line is the state it had there -- also inside a block
    comment, where a [*/] after the [//] is therefore not seen.  On a line
    entered in normal mode whose text before the [//] has no quote,
    backslash or slash, the line counts as that text alone. *)
Theorem line_comment_hides_rest_of_line :
  (forall lines i line j rest st,
      Brace.escape_next st = false -> Brace.in_string st = false ->
      Brace.scan_chars lines i line j (String "/" (String "/" rest)) st = st)
  /\ (forall lines i pre rest st,
         normal_mode st ->
         all_chars (is_not [DQ; BS; "/"%char]) pre = true ->
         let line := pre ++ String "/" (String "/" rest) in
         Brace.scan_line lines i line st = Brace.scan_chars lines i line 0 pre st).
Proof.
  split.
  - intros. now apply step_line_comment.
  - intros lines i pre rest st Hn Hpre line. unfold Brace.scan_line.
    destruct (scan_normal_prefix lines i pre Hpre (String "/" (String "/" rest)) line 0 st Hn)
      as [E (Hc & Hs & He)].
    change (Brace.scan_chars lines i line 0 line st)
      with (Brace.scan_chars lines i line 0 (pre ++ String "/" (String "/" rest)) st).
    rewrite E. now apply step_line_comment.
Qed.

Lemma line_comment_hides_rest_of_line_witness :
  let st := Brace.set_in_comment true Brace.initial in
  let lines := ["struct A {  // } }"; "}"] in
  Brace.scan_chars ["// */ struct A {"] 1 "// */ struct A {" 0 "// */ struct A {" st = st
  /\ Brace.scan_line lines 1 "struct A {  // } }" Brace.initial
     = Brace.scan_chars lines 1 "struct A {  // } }" 0 "struct A {  " Brace.initial
  /\ Brace.analyze lines = [("block", 1, 2)].
Proof.
  cbv zeta. destruct line_comment_hides_rest_of_line as [H1 H2].
  split; [|split].
  - apply (H1 _ 1 _ 0 " */ struct A {"); reflexivity.
  - apply (H2 ["struct A {  // } }"; "}"] 1 "struct A {  " " } }" Brace.initial).
    + repeat split.
    + vm_compute. reflexivity.
  - vm_compute. reflexivity.
Defined.

(** X5. A line scanned in comment mode with no escape pending, none of
    whose characters is a backslash, a star or a slash, leaves the state
    as it was, whatever braces and quotes it holds.  On a line entered in
    normal mode, a comment opened and closed on the line is passed over as
    a whole when the text before it has no double quote, backslash or
    slash and the text inside it has no backslash, star or slash: the scan
    resumes after the closing mark in the state it had before the opening
    mark. *)
Theorem block_comment_hides_text :
  (forall lines i line st,
      Brace.in_comment st = true -> Brace.escape_next st = false ->
      all_chars (is_not [BS; "*"%char; "/"%char]) line = true ->
      Brace.scan_line lines i line st = st)
  /\ (forall lines i pre body post st,
         normal_mode st ->
         all_chars (is_not [DQ; BS; "/"%char]) pre = true ->
         all_chars (is_not [BS; "*"%char; "/"%char]) body = true ->
         let line := pre ++ String "/" (String "*" (body ++ String "*" (String "/" post))) in
         Brace.scan_line lines i line st
         = Brace.scan_chars lines i line (len pre + len body + 4) post
             (Brace.scan_chars lines i line 0 pre st)).
Proof.
  split.
  - intros lines i line st Hc He Hall. unfold Brace.scan_line.
    rewrite <- (append_empty_r line) at 2.
    now rewrite (scan_in_comment_prefix lines i line Hall).
  - intros lines i pre body post st Hn Hpre Hbody line. unfold Brace.scan_line.
    destruct (scan_normal_prefix lines i pre Hpre
                (String "/" (String "*" (body ++ String "*" (String "/" post)))) line 0 st Hn)
      as [E Hn1].
    change (Brace.scan_chars lines i line 0 line st)
      with (Brace.scan_chars lines i line 0
              (pre ++ String "/" (String "*" (body ++ String "*" (String "/" post)))) st).
    rewrite E. clear E.
    set (st1 := Brace.scan_chars lines i line 0 pre st) in *.
    cbn [Brace.scan_chars Brace.head_char]. rewrite (step_comment_opens _ _ _ _ st1 Hn1).
    rewrite (scan_in_comment_prefix lines i body Hbody); [|reflexivity|apply Hn1].
    cbn [Brace.scan_chars Brace.head_char]. rewrite step_comment_closes by exact Hn1.
    f_equal. lia.
Qed.

Lemma block_comment_hides_text_witness :
  let st := Brace.set_in_comment true Brace.initial in
  let lines := ["struct S"; "/* { */ int x;"] in
  Brace.scan_line ["struct A {"] 1 "struct A {" st = st
  /\ Brace.scan_line lines 2 "/* { */ int x;" (Brace.state_before lines 2)
     = Brace.scan_chars lines 2 "/* { */ int x;" 7 " int x;"
         (Brace.scan_chars lines 2 "/* { */ int x;" 0 EmptyString (Brace.state_before lines 2)).
Proof.
  cbv zeta. destruct block_comment_hides_text as [H1 H2]. split.
  - apply H1; reflexivity.
  - apply (H2 ["struct S"; "/* { */ int x;"] 2 EmptyString " { " " int x;").
    + vm_compute. auto.
    + reflexivity.
    + vm_compute. reflexivity.
Defined.

(** ** Every tag lies on an occurrence inside the text *)

Section TagBounds.

Import Highlight.

Lemma prefix_len v : forall t, String.prefix v t = true -> len v <= len t.
Proof.
  unfold len. induction v as [|c v IH]; intros [|d t]; cbn; try discriminate; try lia.
  destruct (ascii_dec c d); [|discriminate]. intros H. apply IH in H. lia.
Qed.

Lemma find_bound value : forall text p,
  find value text = Some p -> p + len value <= len text.
Proof.
  induction text as [|c r IH]; intros p; cbn [find].
  - destruct (String.prefix value EmptyString) eqn:E; [|discriminate].
    intros [= <-]. now apply prefix_len in E.
  - destruct (String.prefix value (String c r)) eqn:E.
    + intros [= <-]. now apply prefix_len in E.
    + destruct (find value r) as [q|] eqn:F; [|discriminate].
      intros [= <-]. specialize (IH q eq_refl). unfold len in *. cbn [String.length]. lia.
Qed.

Lemma len_drop_chars n : forall s, len (drop_chars n s) = len s - n.
Proof.
  unfold len. induction n as [|n IH]; intros [|c s]; cbn [drop_chars String.length]; try lia.
  apply IH.
Qed.

Lemma search_bound value text start p :
  search value text start = Some p -> p + len value <= len text.
Proof.
  unfold search. destruct (Nat.leb_spec start (len text)); [|discriminate].
  destruct (find value (drop_chars start text)) as [q|] eqn:F; [|discriminate].
  intros [= <-]. apply find_bound in F. rewrite len_drop_chars in F. lia.
Qed.

Lemma substring_drop_chars n m : forall s,
  String.substring n m s = String.substring 0 m (drop_chars n s).
Proof.
  induction n as [|n IH]; intros s; [now rewrite drop_chars_0|].
  destruct s as [|c s]; cbn [drop_chars String.substring]; [now destruct m|apply IH].
Qed.

Lemma occurrence_substring value text p :
  String.prefix value (drop_chars p text) = true ->
  String.substring p (len value) text = value.
Proof.
  intros H. rewrite substring_drop_chars. now apply String.prefix_correct.
Qed.

Lemma tag_loop_within fuel tag value text : forall start added op,
  In op (tag_loop fuel tag value text start added) ->
  In op added
  \/ exists p, op = (tag, p, p + len value) /\ p + len value <= len text.
Proof.
  induction fuel as [|fuel IH]; intros start added op; cbn [tag_loop]; [now left|].
  destruct (search value text start) as [pos|] eqn:S; [|now left].
  intros H. apply IH in H as [H|H]; [|now right].
  apply in_app_or in H as [H|[<-|[]]]; [now left|].
  right. exists pos. split; [reflexivity|]. now apply search_bound in S.
Qed.

End TagBounds.

(** X6. Every tag the tagger adds carries the type of a token of the
    stream, covers exactly as many characters as that token's value, lies
    inside the text of the widget, and the text it covers is equal to the
    token's value. *)
Theorem tags_cover_token_text :
  forall (avail : bool) (lex : string -> Highlight.lexer -> option (list Highlight.token))
         (content filepath tag : string) (pos end_ : nat),
    In (tag, pos, end_) (Highlight._apply_syntax_highlight avail lex content filepath) ->
    exists lx tokens value,
      Highlight.select_lexer filepath = Some lx
      /\ lex content lx = Some tokens
      /\ In (tag, value) tokens
      /\ end_ = pos + len value
      /\ end_ <= len (Highlight.widget_text content)
      /\ String.substring pos (len value) (Highlight.widget_text content) = value.
Proof.
  intros avail lex content filepath tag pos end_.
  unfold Highlight._apply_syntax_highlight.
  destruct avail; cbn [negb]; [|intros []].
  destruct (Highlight.select_lexer filepath) as [lx|]; [|intros []].
  destruct (lex content lx) as [tokens|] eqn:Hlex; [|intros []].
  intros H. apply in_flat_map in H as ([ty value] & Hin & Hop).
  unfold Highlight.tag_token in Hop. cbn [fst snd] in Hop.
  pose proof (tag_loop_sound _ _ _ _ _ _ _ Hop) as [[]|(p & E & Hocc)].
  pose proof (tag_loop_within _ _ _ _ _ _ _ Hop) as [[]|(q & E' & Hb)].
  injection E as -> -> ->. injection E' as <-.
  exists lx, tokens, value. repeat split; auto.
  now apply occurrence_substring.
Qed.

Lemma tags_cover_token_text_witness :
  In ("Token.Name", 4, 7)
     (Highlight._apply_syntax_highlight true Inputs.call_lex "foo(foo)" "a.py")
  /\ exists lx tokens value,
      Highlight.select_lexer "a.py" = Some lx
      /\ Inputs.call_lex "foo(foo)" lx = Some tokens
      /\ In ("Token.Name", value) tokens
      /\ 7 = 4 + len value
      /\ 7 <= len (Highlight.widget_text "foo(foo)")
      /\ String.substring 4 (len value) (Highlight.widget_text "foo(foo)") = value.
Proof.
  assert (H : In ("Token.Name", 4, 7)
                (Highlight._apply_syntax_highlight true Inputs.call_lex "foo(foo)" "a.py")).
  { vm_compute. auto 10. }
  split; [exact H|].
  exact (tags_cover_token_text true Inputs.call_lex "foo(foo)" "a.py" "Token.Name" 4 7 H).
Defined.

(** ** Lengths *)

Lemma len_append a : forall b, len (a ++ b) = len a + len b.
Proof.
  unfold len. induction a as [|c a IH]; intros b; [reflexivity|].
  change (String c a ++ b) with (String c (a ++ b)). cbn [String.length]. now rewrite IH.
Qed.

(** ** The list of recent files *)

Section Recent.

Import Config.

Lemma remove_first_sub x l : forall y, In y (remove_first x l) -> In y l.
Proof.
  induction l as [|z l IH]; intros y; cbn [remove_first]; [auto|].
  destruct (String.eqb z x); [now right|]. intros [->|H]; [now left|right; auto].
Qed.

Lemma remove_first_nodup x l :
  NoDup l -> NoDup (remove_first x l) /\ ~ In x (remove_first x l).
Proof.
  induction 1 as [|z l Hz Hl IH]; cbn [remove_first].
  - split; [constructor|intros []].
  - destruct (String.eqb_spec z x) as [->|Hne].
    + split; [exact Hl|]. intros H. apply Hz. now apply list_elem_of_In.
    + destruct IH as [IH1 IH2]. split.
      * constructor; [|exact IH1]. intros H. apply Hz.
        apply list_elem_of_In. apply list_elem_of_In in H. now apply remove_first_sub in H.
      * intros [H|H]; [congruence|contradiction].
Qed.

Lemma existsb_eqb_false x l :
  existsb (String.eqb x) l = false -> ~ In x l.
Proof.
  intros H Hin. assert (existsb (String.eqb x) l = true); [|congruence].
  apply existsb_exists. exists x. split; [exact Hin|apply String.eqb_refl].
Qed.

(** The list before the cut: the path in front of the others. *)
Lemma add_recent_uncut (c : config_data) file_path :
  NoDup (recent_files c) ->
  let rest := if existsb (String.eqb file_path) (recent_files c)
              then remove_first file_path (recent_files c) else recent_files c in
  NoDup (file_path :: rest) /\ forall y, In y rest -> In y (recent_files c).
Proof.
  intros Hnd rest. unfold rest.
  destruct (existsb (String.eqb file_path) (recent_files c)) eqn:E.
  - destruct (remove_first_nodup file_path _ Hnd) as [H1 H2]. split.
    + constructor; [|exact H1]. intros H. apply H2. now apply list_elem_of_In.
    + apply remove_first_sub.
  - split; [|auto]. constructor; [|exact Hnd].
    intros H. apply (existsb_eqb_false _ _ E). now apply list_elem_of_In.
Qed.

End Recent.

(** X10. With a non-negative limit, opening a file leaves a list of recent
    files that is no longer than the limit, has the opened file in front
    when the limit is at least one, holds only the opened file and files
    that were listed before, and lists no file twice if none was listed
    twice before. *)
Theorem recent_files_bounded_and_distinct :
  forall (c : Config.config_data) (file_path : string),
    (0 <= Config.max_recent_files c)%Z ->
    let c' := Config._add_recent_file c file_path in
    length (Config.recent_files c') <= Z.to_nat (Config.max_recent_files c)
    /\ ((1 <= Config.max_recent_files c)%Z -> head (Config.recent_files c') = Some file_path)
    /\ (forall y, In y (Config.recent_files c') -> y = file_path \/ In y (Config.recent_files c))
    /\ (NoDup (Config.recent_files c) -> NoDup (Config.recent_files c'))
    /\ Config.max_recent_files c' = Config.max_recent_files c.
Proof.
  intros c file_path Hmax c'. unfold c', Config._add_recent_file.
  cbn [Config.recent_files Config.max_recent_files Config.set_recent_files].
  unfold Config.slice_to. destruct (Z.leb_spec 0 (Config.max_recent_files c)); [|lia].
  set (rest := if existsb (String.eqb file_path) (Config.recent_files c)
               then Config.remove_first file_path (Config.recent_files c)
               else Config.recent_files c).
  assert (Hsub : forall y, In y rest -> In y (Config.recent_files c)).
  { unfold rest. destruct (existsb _ _); [apply remove_first_sub|auto]. }
  split; [|split; [|split; [|split]]].
  - rewrite length_take. lia.
  - intros H1. destruct (Z.to_nat (Config.max_recent_files c)) eqn:E; [lia|reflexivity].
  - intros y Hy. apply list_elem_of_In in Hy.
    apply (subseteq_take _ (file_path :: rest)) in Hy. apply list_elem_of_In in Hy.
    destruct Hy as [<-|Hy]; [now left|right; auto].
  - intros Hnd. destruct (add_recent_uncut c file_path Hnd) as [H1 _].
    eapply sublist_NoDup; [exact H1|apply sublist_take].
  - reflexivity.
Qed.

Lemma recent_files_bounded_and_distinct_witness :
  let c := Config.set_recent_files ["a.py"; "b.c"; "c.h"] Config.initial in
  (0 <= Config.max_recent_files c)%Z
  /\ Config.recent_files (Config._add_recent_file c "b.c") = ["b.c"; "a.py"; "c.h"]
  /\ length (Config.recent_files (Config._add_recent_file c "b.c")) <= 10.
Proof.
  cbv zeta. split; [vm_compute; discriminate|]. split; [reflexivity|].
  refine (proj1 (recent_files_bounded_and_distinct
                   (Config.set_recent_files ["a.py"; "b.c"; "c.h"] Config.initial) "b.c" _)).
  vm_compute. discriminate.
Defined.

(** X11. With a non-negative limit, opening the same file twice in a row
    leaves the configuration as opening it once. *)
Theorem recent_file_twice_is_once :
  forall (c : Config.config_data) (file_path : string),
    (0 <= Config.max_recent_files c)%Z ->
    Config._add_recent_file (Config._add_recent_file c file_path) file_path
    = Config._add_recent_file c file_path.
Proof.
  intros c file_path Hmax. unfold Config._add_recent_file.
  cbn [Config.recent_files Config.max_recent_files Config.set_recent_files
       Config.gcc_path Config.font_size Config.theme Config.autosave_interval].
  unfold Config.set_recent_files. f_equal.
  unfold Config.slice_to. destruct (Z.leb_spec 0 (Config.max_recent_files c)); [|lia].
  set (rest := if existsb (String.eqb file_path) (Config.recent_files c)
               then Config.remove_first file_path (Config.recent_files c)
               else Config.recent_files c).
  destruct (Z.to_nat (Config.max_recent_files c)) as [|m]; [reflexivity|].
  cbn [take existsb Config.remove_first]. rewrite String.eqb_refl. cbn [orb].
  now rewrite take_idemp.
Qed.

Lemma recent_file_twice_is_once_witness :
  let c := Config.set_recent_files ["a.py"; "b.c"] Config.initial in
  (0 <= Config.max_recent_files c)%Z
  /\ Config._add_recent_file (Config._add_recent_file c "b.c") "b.c"
     = Config._add_recent_file c "b.c".
Proof.
  cbv zeta. split; [vm_compute; discriminate|].
  apply recent_file_twice_is_once. vm_compute. discriminate.
Defined.

(** ** Breakpoints *)

Lemma toggle_breakpoint_lines bp f l :
  forall f',
    Breakpoints.lines_of (Breakpoints._toggle_breakpoint bp f l).1 f'
    = if decide (f = f')
      then (if decide (l ∈ Breakpoints.lines_of bp f)
            then Breakpoints.lines_of bp f ∖ {[ l ]}
            else Breakpoints.lines_of bp f ∪ {[ l ]})
      else Breakpoints.lines_of bp f'.
Proof.
  intros f'. unfold Breakpoints._toggle_breakpoint, Breakpoints.lines_of.
  destruct (bp !! f) as [s|] eqn:E; cbn [default from_option id].
  - rewrite E. cbn [default from_option id].
    destruct (decide (l ∈ s)); cbn [fst]; rewrite lookup_insert;
      destruct (decide (f = f')); reflexivity.
  - rewrite lookup_insert_eq. cbn [default from_option id].
    destruct (decide (l ∈ (∅ : gset nat))) as [Hin|_]; [now apply not_elem_of_empty in Hin|].
    cbn [fst]. rewrite lookup_insert. destruct (decide (f = f')) as [->|Hne]; [reflexivity|].
    now rewrite lookup_insert_ne.
Qed.

(** X12. Toggling the breakpoint of a line changes the membership of that
    line in the set of its file and of nothing else, asks for the tag to be
    added exactly when the line had no breakpoint, and toggling twice gives
    every file the set of lines it had. *)
Theorem breakpoint_toggle_round_trip :
  forall (bp : gmap (option string) (gset nat)) (f : option string) (l : nat),
    let r1 := Breakpoints._toggle_breakpoint bp f l in
    let r2 := Breakpoints._toggle_breakpoint r1.1 f l in
    (l ∈ Breakpoints.lines_of r1.1 f <-> l ∉ Breakpoints.lines_of bp f)
    /\ (forall f' l', (f', l') <> (f, l) ->
          (l' ∈ Breakpoints.lines_of r1.1 f' <-> l' ∈ Breakpoints.lines_of bp f'))
    /\ (r1.2 = Breakpoints.TagAdd l <-> l ∉ Breakpoints.lines_of bp f)
    /\ (forall f', Breakpoints.lines_of r2.1 f' = Breakpoints.lines_of bp f').
Proof.
  intros bp f l r1 r2.
  assert (H1 : forall f', Breakpoints.lines_of r1.1 f'
             = if decide (f = f')
               then (if decide (l ∈ Breakpoints.lines_of bp f)
                     then Breakpoints.lines_of bp f ∖ {[ l ]}
                     else Breakpoints.lines_of bp f ∪ {[ l ]})
               else Breakpoints.lines_of bp f') by apply toggle_breakpoint_lines.
  split; [|split; [|split]].
  - rewrite H1. destruct (decide (f = f)) as [_|Hc]; [|congruence].
    destruct (decide (l ∈ Breakpoints.lines_of bp f)) as [Hin|Hout].
    + rewrite elem_of_difference, elem_of_singleton. tauto.
    + rewrite elem_of_union, elem_of_singleton. tauto.
  - intros f' l' Hne. rewrite H1.
    destruct (decide (f = f')) as [<-|_]; [|reflexivity].
    assert (l' <> l) by congruence.
    destruct (decide (l ∈ Breakpoints.lines_of bp f)).
    + rewrite elem_of_difference, elem_of_singleton. tauto.
    + rewrite elem_of_union, elem_of_singleton. tauto.
  - unfold r1, Breakpoints._toggle_breakpoint, Breakpoints.lines_of.
    destruct (bp !! f) as [s|] eqn:E; cbn [default from_option id].
    + rewrite E. cbn [default from_option id]. destruct (decide (l ∈ s)); cbn [snd];
        split; try discriminate; tauto.
    + rewrite lookup_insert_eq. cbn [default from_option id].
      destruct (decide (l ∈ (∅ : gset nat))) as [Hin|Hout]; cbn [snd];
        [now apply not_elem_of_empty in Hin|]. tauto.
  - intros f'. unfold r2. rewrite toggle_breakpoint_lines, !H1.
    destruct (decide (f = f')) as [<-|_]; [|reflexivity].
    destruct (decide (f = f)) as [_|Hc]; [|congruence]. apply set_eq. intros x.
    destruct (decide (l ∈ Breakpoints.lines_of bp f)) as [Hin|Hout].
    + destruct (decide (l ∈ Breakpoints.lines_of bp f ∖ {[ l ]})) as [Hin'|_].
      { apply elem_of_difference in Hin' as [_ Hin']. contradiction Hin'.
        now apply elem_of_singleton. }
      rewrite elem_of_union, elem_of_difference, elem_of_singleton.
      destruct (decide (x = l)) as [->|]; tauto.
    + destruct (decide (l ∈ Breakpoints.lines_of bp f ∪ {[ l ]})) as [_|Hout'].
      2:{ contradiction Hout'. apply elem_of_union. right. now apply elem_of_singleton. }
      rewrite elem_of_difference, elem_of_union, elem_of_singleton.
      destruct (decide (x = l)) as [->|]; tauto.
Qed.

Lemma breakpoint_toggle_round_trip_witness :
  let bp : gmap (option string) (gset nat) := {[ Some "m.py" := {[ 3 ]} ]} in
  Breakpoints.lines_of
    (Breakpoints._toggle_breakpoint (Breakpoints._toggle_breakpoint bp None 7).1 None 7).1
    (Some "m.py")
  = Breakpoints.lines_of bp (Some "m.py")
  /\ (Breakpoints._toggle_breakpoint bp None 7).2 = Breakpoints.TagAdd 7.
Proof.
  cbv zeta.
  destruct (breakpoint_toggle_round_trip {[ Some "m.py" := {[ 3 ]} ]} None 7)
    as (_ & _ & Htag & Hback).
  split; [apply Hback|]. apply Htag. vm_compute. intros H. discriminate H.
Defined.

(** ** Font size and theme *)

(** X13. A font size between 8 and 24 stays between 8 and 24 under any
    sequence of wheel events, and one event changes it by at most one. *)
Theorem font_size_stays_in_range :
  forall (deltas : list Z) (c : Config.config_data),
    (8 <= Config.font_size c <= 24)%Z ->
    (8 <= Config.font_size (fold_left Config._on_ctrl_scroll deltas c) <= 24)%Z
    /\ (forall delta,
          (Z.abs (Config.font_size (Config._on_ctrl_scroll c delta) - Config.font_size c) <= 1)%Z).
Proof.
  intros deltas c H. split.
  - revert c H. induction deltas as [|d deltas IH]; intros c H; cbn [fold_left]; [exact H|].
    apply IH. unfold Config._on_ctrl_scroll.
    destruct (0 <? d)%Z; cbn [Config.font_size Config.set_font_size]; lia.
  - intros delta. unfold Config._on_ctrl_scroll.
    destruct (0 <? delta)%Z; cbn [Config.font_size Config.set_font_size]; lia.
Qed.

Lemma font_size_stays_in_range_witness :
  (8 <= Config.font_size Config.initial <= 24)%Z
  /\ (8 <= Config.font_size
             (fold_left Config._on_ctrl_scroll (repeat 120%Z 30) Config.initial) <= 24)%Z.
Proof.
  assert (H : (8 <= Config.font_size Config.initial <= 24)%Z) by (cbn; lia).
  split; [exact H|].
  exact (proj1 (font_size_stays_in_range (repeat 120%Z 30) Config.initial H)).
Defined.

(** X14. After [_toggle_theme] the theme is ["light"] or ["dark"]; toggling
    twice restores the configuration exactly when the theme was one of the
    two, and the colours in force change with a toggle exactly in that
    case: from any other theme name the toggle goes to ["light"], whose
    colours were already in force. *)
Theorem theme_toggle :
  forall c : Config.config_data,
    (Config.theme (Config._toggle_theme c) = "light"
     \/ Config.theme (Config._toggle_theme c) = "dark")
    /\ (Config._toggle_theme (Config._toggle_theme c) = c
        <-> Config.theme c = "light" \/ Config.theme c = "dark")
    /\ (Config._apply_theme (Config._toggle_theme c) <> Config._apply_theme c
        <-> Config.theme c = "light" \/ Config.theme c = "dark").
Proof.
  intros [g fs th au rf mx]. unfold Config._toggle_theme, Config._apply_theme, Config.set_theme.
  cbn [Config.theme Config.gcc_path Config.font_size Config.autosave_interval
       Config.recent_files Config.max_recent_files].
  destruct (String.eqb_spec th "light") as [->|Hl].
  - cbn. split; [now right|]. split; split; auto; discriminate.
  - cbn [String.eqb Ascii.eqb]. change (String.eqb "light" "light") with true.
    cbn [Config.theme]. split; [now left|].
    destruct (String.eqb_spec th "dark") as [->|Hd].
    + cbn. split; split; auto; discriminate.
    + split; split.
      * intros [= E]. congruence.
      * intros [?|?]; congruence.
      * intros H. now contradiction H.
      * intros [?|?]; congruence.
Qed.

Lemma theme_toggle_witness :
  Config._toggle_theme (Config._toggle_theme Config.initial) = Config.initial
  /\ Config._apply_theme (Config._toggle_theme (Config.set_theme "Dark" Config.initial))
     = Config._apply_theme (Config.set_theme "Dark" Config.initial).
Proof.
  split.
  - apply (proj1 (proj2 (theme_toggle Config.initial))). now left.
  - reflexivity.
Defined.

(** ** The line-number column *)

Lemma split_lines_nonempty s : split_lines s <> [].
Proof.
  induction s as [|c s IH]; cbn [split_lines]; [discriminate|].
  destruct (char_eqb c LF); [discriminate|]. destruct (split_lines s); discriminate.
Qed.

Lemma split_lines_line a : forall rest,
  no_lf a -> split_lines (a ++ String LF rest) = a :: split_lines rest.
Proof.
  unfold no_lf. induction a as [|c a IH]; intros rest H.
  - reflexivity.
  - cbn [all_chars] in H. apply andb_prop in H as [Hc Ha].
    change (String c a ++ String LF rest) with (String c (a ++ String LF rest)).
    cbn [split_lines]. rewrite (IH rest Ha).
    unfold is_not in Hc. cbn [existsb] in Hc. rewrite orb_false_r in Hc.
    apply negb_true_iff in Hc. now rewrite Hc.
Qed.

Lemma split_lines_single a : no_lf a -> split_lines a = [a].
Proof.
  unfold no_lf. induction a as [|c a IH]; intros H; [reflexivity|].
  cbn [all_chars] in H. apply andb_prop in H as [Hc Ha].
  cbn [split_lines]. rewrite (IH Ha).
  unfold is_not in Hc. cbn [existsb] in Hc. rewrite orb_false_r in Hc.
  apply negb_true_iff in Hc. now rewrite Hc.
Qed.

(** Splitting undoes joining when no part holds a line feed. *)
Lemma split_lines_join parts :
  parts <> [] -> Forall no_lf parts -> split_lines (join nl parts) = parts.
Proof.
  induction parts as [|a parts IH]; intros Hne Hall; [congruence|].
  apply Forall_cons_1 in Hall as [Ha Hall].
  destruct parts as [|b parts]; [now apply split_lines_single|].
  change (join nl (a :: b :: parts)) with (a ++ String LF (join nl (b :: parts))).
  rewrite (split_lines_line a _ Ha). f_equal. apply IH; [discriminate|exact Hall].
Qed.

Lemma pretty_N_char_no_lf x : is_not [LF] (pretty_N_char x) = true.
Proof. unfold pretty_N_char. repeat case_match; reflexivity. Qed.

Lemma pretty_N_go_no_lf x : forall s, no_lf s -> no_lf (pretty_N_go x s).
Proof.
  induction (N.lt_wf_0 x) as [x _ IH]; intros s Hs.
  destruct (decide (0 < x)%N) as [Hpos|Hz].
  - rewrite pretty_N_go_step by exact Hpos. apply IH; [now apply N.div_lt|].
    unfold no_lf. cbn [all_chars]. now rewrite pretty_N_char_no_lf.
  - replace x with 0%N by lia. now rewrite pretty_N_go_0.
Qed.

Lemma pretty_nat_no_lf (n : nat) : no_lf (pretty n).
Proof.
  unfold pretty, pretty_nat, pretty, pretty_N.
  destruct (decide (N.of_nat n = 0%N)); [reflexivity|].
  apply pretty_N_go_no_lf. reflexivity.
Qed.

(** X15. The line-number column holds exactly one line per line of the
    text: its lines are the decimal numbers 1, 2, ... up to the number of
    lines of the text, in this order. *)
Theorem line_numbers_match_text :
  forall content : string,
    split_lines (_update_line_numbers content) = map pretty (seq 1 (last_line content))
    /\ last_line (_update_line_numbers content) = last_line content.
Proof.
  intros content.
  assert (H : split_lines (_update_line_numbers content)
              = map pretty (seq 1 (last_line content))).
  { unfold _update_line_numbers. apply split_lines_join.
    - unfold last_line. pose proof (split_lines_nonempty content) as Hne.
      destruct (split_lines content); [congruence|discriminate].
    - apply Forall_map, Forall_forall. intros n _. apply pretty_nat_no_lf. }
  split; [exact H|].
  unfold last_line at 1. rewrite H. now rewrite length_map, length_seq.
Qed.

Example line_numbers_three :
  _update_line_numbers ("a" ++ nl ++ "b" ++ nl) = "1" ++ nl ++ "2" ++ nl ++ "3".
Proof. vm_compute. reflexivity. Qed.

(** ** The compile command *)

Section CompileCommand.

Import Compile.

Lemma before_last_none sep s :
  all_chars (is_not [sep]) s = true -> before_last sep s = None.
Proof.
  induction s as [|c s IH]; intros H; [reflexivity|].
  cbn [all_chars] in H. apply andb_prop in H as [Hc Hs].
  cbn [before_last]. rewrite (IH Hs).
  unfold is_not in Hc. cbn [existsb] in Hc. rewrite orb_false_r in Hc.
  apply negb_true_iff in Hc. now rewrite Hc.
Qed.

Lemma before_last_split sep stem ext :
  all_chars (is_not [sep]) ext = true ->
  before_last sep (stem ++ String sep ext) = Some stem.
Proof.
  intros Hext. induction stem as [|c stem IH].
  - change (EmptyString ++ String sep ext) with (String sep ext).
    cbn [before_last]. rewrite (before_last_none _ _ Hext).
    unfold char_eqb. now rewrite Ascii.eqb_refl.
  - change (String c stem ++ String sep ext) with (String c (stem ++ String sep ext)).
    cbn [before_last]. now rewrite IH.
Qed.

Lemma substring_all s : String.substring 0 (String.length s) s = s.
Proof. induction s as [|c s IH]; cbn; [reflexivity|now rewrite IH]. Qed.

(** A string is its first [n] characters followed by the rest. *)
Lemma substring_split n : forall s,
  n <= String.length s ->
  s = String.substring 0 n s ++ String.substring n (String.length s - n) s.
Proof.
  induction n as [|n IH]; intros s Hn.
  - rewrite Nat.sub_0_r, substring_all. now destruct s.
  - destruct s as [|c s]; cbn [String.length] in Hn; [lia|].
    cbn [String.substring String.length Nat.sub].
    change (String c (String.substring 0 n s) ++ String.substring n (String.length s - n) s)
      with (String c (String.substring 0 n s ++ String.substring n (String.length s - n) s)).
    f_equal. apply IH. lia.
Qed.

Lemma endswith_split s p : endswith s p = true -> exists stem, s = stem ++ p.
Proof.
  unfold endswith, len. intros H. apply andb_prop in H as [Hlen Heq].
  apply Nat.leb_le in Hlen. apply String.eqb_eq in Heq.
  exists (String.substring 0 (String.length s - String.length p) s).
  pose proof (substring_split (String.length s - String.length p) s) as Hsp.
  replace (String.length s - (String.length s - String.length p))
    with (String.length p) in Hsp by lia.
  rewrite Heq in Hsp. apply Hsp. lia.
Qed.

End CompileCommand.

(** X16. For a file path made of a stem, a dot and an extension without a
    dot, the executable is written to the stem (with [.exe] added on
    Windows); for a path ending in [.c], [.cpp], [.cc] or [.cxx] the
    executable path is therefore never the path of the source file. *)
Theorem executable_path_drops_extension :
  (forall (nt : bool) (stem ext : string),
      all_chars (is_not ["."%char]) ext = true ->
      Compile.exe_path nt (stem ++ String "." ext)
      = String.append stem (if nt then ".exe" else EmptyString))
  /\ (forall (nt : bool) (file_path : string),
         endswith_any file_path [".c"; ".cpp"; ".cc"; ".cxx"] = true ->
         Compile.exe_path nt file_path <> file_path).
Proof.
  assert (H1 : forall (nt : bool) (stem ext : string),
             all_chars (is_not ["."%char]) ext = true ->
             Compile.exe_path nt (stem ++ String "." ext)
             = String.append stem (if nt then ".exe" else EmptyString)).
  { intros nt stem ext Hext. unfold Compile.exe_path, Compile.rsplit_dot_head.
    now rewrite (before_last_split "."%char stem ext Hext). }
  split; [exact H1|].
  intros nt file_path Hend. unfold endswith_any in Hend. cbn [existsb] in Hend.
  rewrite orb_false_r in Hend.
  assert (Hext : exists stem ext, file_path = stem ++ String "." ext
                   /\ all_chars (is_not ["."%char]) ext = true
                   /\ String "." ext <> ".exe" /\ ext <> EmptyString).
  { repeat (apply orb_prop in Hend as [Hend|Hend]);
      apply endswith_split in Hend as [stem ->]; exists stem;
      [exists "c"|exists "cpp"|exists "cc"|exists "cxx"];
      (split; [reflexivity|split; [reflexivity|split; discriminate]]). }
  destruct Hext as (stem & ext & -> & Hnodot & Hexe & Hne).
  rewrite (H1 nt stem ext Hnodot). intros Heq.
  destruct nt.
  - apply (inj (String.app stem)) in Heq. congruence.
  - apply (f_equal len) in Heq. rewrite !len_append in Heq.
    unfold len in Heq. cbn [String.length] in Heq. lia.
Qed.

Lemma executable_path_drops_extension_witness :
  all_chars (is_not ["."%char]) "cpp" = true
  /\ Compile.exe_path false "/home/u/my.proj/main.cpp" = "/home/u/my.proj/main"
  /\ Compile.exe_path true "main.c" <> "main.c".
Proof.
  destruct executable_path_drops_extension as [H1 H2].
  split; [reflexivity|]. split.
  - exact (H1 false "/home/u/my.proj/main" "cpp" eq_refl).
  - apply H2. reflexivity.
Defined.

(** The compiler named in the compile command: without a bound GCC
    path (the initial configuration) there is none, for every file; a
    bound path other than [gcc] is used as it is for C and C++ files
    alike; the path [gcc] becomes [g++] exactly for the files whose path
    ends in [.cpp], [.cc] or [.cxx], so not for [.CPP]. *)
Theorem compiler_of_command :
  forall (c : Config.config_data) (nt : bool) (file_path : string),
    head (Compile.compile_cmd c nt file_path) = Some (Compile.compiler c file_path)
    /\ (Config.gcc_path c = None -> Compile.compiler c file_path = None)
    /\ (forall g, Config.gcc_path c = Some g -> g <> "gcc" ->
          Compile.compiler c file_path = Some g)
    /\ (Config.gcc_path c = Some "gcc" ->
          Compile.compiler c file_path
          = Some (if Compile.is_cpp file_path then "g++" else "gcc")).
Proof.
  intros c nt file_path. unfold Compile.compiler.
  split; [reflexivity|]. split; [|split].
  - intros ->. now destruct (Compile.is_cpp file_path).
  - intros g -> Hg. destruct (Compile.is_cpp file_path); [|reflexivity].
    destruct (String.eqb_spec g "gcc"); [contradiction|reflexivity].
  - intros ->. now destruct (Compile.is_cpp file_path).
Qed.

Lemma compiler_of_command_witness :
  Config.gcc_path Config.initial = None
  /\ Compile.compile_cmd Config.initial false "main.c"
     = [None; Some "main.c"; Some "-o"; Some "main"; Some "-g"].
Proof.
  split; [reflexivity|].
  pose proof (proj1 (proj2 (compiler_of_command Config.initial false "main.c")) eq_refl) as H.
  unfold Compile.compile_cmd. rewrite H. reflexivity.
Defined.

(** ** Quick find *)

Section QuickFindFacts.

Import Highlight.

(** [find] returns the first occurrence. *)
Lemma find_first value : forall text p,
  find value text = Some p ->
  forall q, q < p -> String.prefix value (drop_chars q text) = false.
Proof.
  induction text as [|c r IH]; intros p; cbn [find].
  - destruct (String.prefix value EmptyString); [|discriminate]. intros [= <-] q Hq. lia.
  - destruct (String.prefix value (String c r)) eqn:E; [intros [= <-] q Hq; lia|].
    destruct (find value r) as [p'|] eqn:F; [|discriminate].
    intros [= <-] [|q] Hq; [exact E|]. cbn [drop_chars]. apply (IH p' eq_refl). lia.
Qed.

(** [find] fails only when there is no occurrence at all. *)
Lemma find_none value : forall text,
  find value text = None ->
  forall q, q <= len text -> String.prefix value (drop_chars q text) = false.
Proof.
  unfold len. induction text as [|c r IH]; cbn [find].
  - destruct (String.prefix value EmptyString) eqn:E; [discriminate|].
    intros _ q Hq. cbn [String.length] in Hq. now replace q with 0 by lia.
  - destruct (String.prefix value (String c r)) eqn:E; [discriminate|].
    destruct (find value r) as [p'|] eqn:F; [discriminate|].
    intros _ [|q] Hq; [exact E|]. cbn [drop_chars]. apply (IH eq_refl).
    cbn [String.length] in Hq. lia.
Qed.

End QuickFindFacts.

(** X17. Quick find works on the query without its surrounding white
    space and does nothing when that is empty.  Otherwise, when it selects
    a range, the range starts at or after the cursor, holds exactly the
    query, and no occurrence of the query starts between the cursor and
    it; when it reports that nothing was found, the query occurs nowhere
    from the cursor on. *)
Theorem quick_find_selects_first_match :
  forall (find_var content : string) (insert : nat),
    let text := Highlight.widget_text content in
    let query := strip find_var in
    match QuickFind._quick_find find_var content insert with
    | QuickFind.Ignored => query = EmptyString
    | QuickFind.Selected start_idx end_idx =>
        query <> EmptyString
        /\ insert <= start_idx
        /\ end_idx = start_idx + len query
        /\ end_idx <= len text
        /\ String.substring start_idx (len query) text = query
        /\ (forall p, insert <= p -> p < start_idx -> ~ QuickFind.occurs_at query text p)
    | QuickFind.NotFound =>
        query <> EmptyString
        /\ (forall p, insert <= p -> ~ QuickFind.occurs_at query text p)
    end.
Proof.
  intros find_var content insert text query. unfold QuickFind._quick_find.
  fold query. fold text.
  destruct (String.eqb_spec query EmptyString) as [E|Hne]; [exact E|].
  destruct (Highlight.find query (Highlight.drop_chars insert text)) as [pos|] eqn:F.
  - pose proof (find_occurs _ _ _ F) as Hocc. rewrite <- drop_chars_add in Hocc.
    pose proof (find_bound _ _ _ F) as Hb. rewrite len_drop_chars in Hb.
    split; [exact Hne|]. split; [lia|]. split; [lia|].
    assert (Hlen : insert + pos + len query <= len text).
    { apply prefix_len in Hocc. rewrite len_drop_chars in Hocc.
      destruct (Nat.le_gt_cases (insert + pos) (len text)); [lia|].
      assert (len query = 0) by lia. destruct query; [congruence|discriminate]. }
    split; [lia|]. split; [now apply occurrence_substring|].
    intros p Hp1 Hp2 [_ Hp].
    replace p with (insert + (p - insert)) in Hp by lia. rewrite drop_chars_add in Hp.
    rewrite (find_first _ _ _ F (p - insert)) in Hp by lia. discriminate.
  - split; [exact Hne|]. intros p Hp [Hle Hocc].
    replace p with (insert + (p - insert)) in Hocc by lia. rewrite drop_chars_add in Hocc.
    rewrite (find_none _ _ F (p - insert)) in Hocc; [discriminate|].
    rewrite len_drop_chars. lia.
Qed.

Lemma quick_find_selects_first_match_witness :
  QuickFind._quick_find "  foo " "foo(foo)" 1 = QuickFind.Selected 4 7
  /\ String.substring 4 3 (Highlight.widget_text "foo(foo)") = "foo"
  /\ QuickFind._quick_find "bar" "foo(foo)" 0 = QuickFind.NotFound.
Proof.
  pose proof (quick_find_selects_first_match "  foo " "foo(foo)" 1) as H.
  assert (E : QuickFind._quick_find "  foo " "foo(foo)" 1 = QuickFind.Selected 4 7)
    by (vm_compute; reflexivity).
  rewrite E in H. cbv zeta in H. destruct H as (_ & _ & _ & _ & Hsub & _).
  split; [exact E|]. split; [exact Hsub|]. vm_compute. reflexivity.
Defined.

(** ** Return in the editor *)

Section ReturnKey.

Import AutoIndent.

Lemma upto_0 s : upto s 0 = EmptyString.
Proof. now destruct s. Qed.

Lemma lookup_middle {A} (l1 l2 : list A) x k :
  length l1 = k -> ((l1 ++ x :: l2)%list) !! k = Some x.
Proof. intros <-. apply list_lookup_middle. reflexivity. Qed.

Lemma alter_middle {A} (f : A -> A) (l1 l2 : list A) x k :
  length l1 = k -> alter f k ((l1 ++ x :: l2)%list) = (l1 ++ f x :: l2)%list.
Proof.
  intros <-. rewrite alter_app_r_alt by lia. now rewrite Nat.sub_diag.
Qed.

End ReturnKey.

(** X18. Return cuts the line at the cursor and puts the cursor on the new
    line.  The new line never receives the indentation of the line that was
    cut; it receives four spaces exactly when the line above the line that
    was cut (on the first line: the part left of the cursor) ends in a
    colon after trailing white space is dropped, so a colon at the end of
    the line just typed has no effect unless that line is the first. *)
Theorem return_indents_from_line_above :
  forall (L : list string) (k c : nat) (cur : string),
    L !! k = Some cur ->
    c <= len cur ->
    let above := match k with
                 | 0 => upto cur c
                 | S k' => default EmptyString (L !! k')
                 end in
    let pad := if endswith (rstrip above) ":" then "    " else EmptyString in
    AutoIndent._on_return {| AutoIndent.lines := L; AutoIndent.line := S k; AutoIndent.col := c |}
    = {| AutoIndent.lines :=
           take k L ++ [upto cur c; String.append pad (Highlight.drop_chars c cur)]
           ++ drop (S k) L;
         AutoIndent.line := S (S k);
         AutoIndent.col := len pad |}.
Proof.
  intros L k c cur Hk Hc above pad.
  pose proof (lookup_lt_Some _ _ _ Hk) as Hlt.
  assert (Htk : length (take k L) = k) by (rewrite length_take; lia).
  unfold AutoIndent._on_return.
  set (b1 := AutoIndent.insert_newline _).
  assert (Eb1 : b1 = {| AutoIndent.lines :=
                          take k L ++ [upto cur c; Highlight.drop_chars c cur] ++ drop (S k) L;
                        AutoIndent.line := S (S k); AutoIndent.col := 0 |}).
  { unfold b1, AutoIndent.insert_newline, AutoIndent.line_at.
    cbn [AutoIndent.lines AutoIndent.line AutoIndent.col].
    replace (S k - 1) with k by lia. now rewrite Hk. }
  clearbody b1. subst b1.
  change (take k L ++ [upto cur c; Highlight.drop_chars c cur] ++ drop (S k) L)%list
    with (take k L ++ upto cur c :: Highlight.drop_chars c cur :: drop (S k) L)%list.
  set (new_lines := (take k L ++ upto cur c :: Highlight.drop_chars c cur :: drop (S k) L)%list).
  assert (Hnew : new_lines !! S k = Some (Highlight.drop_chars c cur)).
  { unfold new_lines. rewrite cons_middle, app_assoc.
    apply lookup_middle. rewrite length_app, Htk. cbn. lia. }
  assert (Hline : AutoIndent.line_at
                    {| AutoIndent.lines := new_lines; AutoIndent.line := S (S k);
                       AutoIndent.col := 0 |} (S (S k)) = Highlight.drop_chars c cur).
  { unfold AutoIndent.line_at. cbn [AutoIndent.lines]. replace (S (S k) - 1) with (S k) by lia.
    now rewrite Hnew. }
  cbn [AutoIndent.line AutoIndent.col]. rewrite Hline, upto_0.
  cbn [AutoIndent.leading_space].
  assert (Eb2 : AutoIndent.insert_text EmptyString
                  {| AutoIndent.lines := new_lines; AutoIndent.line := S (S k);
                     AutoIndent.col := 0 |}
                = {| AutoIndent.lines := new_lines; AutoIndent.line := S (S k);
                     AutoIndent.col := 0 |}).
  { unfold AutoIndent.insert_text. cbn [AutoIndent.lines AutoIndent.line AutoIndent.col].
    f_equal. apply list_alter_id. intros x. rewrite upto_0, drop_chars_0. reflexivity. }
  rewrite Eb2.
  assert (Eprev : AutoIndent.line_at
                    {| AutoIndent.lines := new_lines; AutoIndent.line := S (S k);
                       AutoIndent.col := 0 |}
                    (AutoIndent.two_lines_up
                       {| AutoIndent.lines := new_lines; AutoIndent.line := S (S k);
                          AutoIndent.col := 0 |}) = above).
  { unfold AutoIndent.line_at, AutoIndent.two_lines_up, above.
    cbn [AutoIndent.lines AutoIndent.line]. unfold new_lines.
    destruct k as [|k'].
    - reflexivity.
    - replace (Nat.max 1 (S (S (S k')) - 2) - 1) with k' by lia.
      rewrite lookup_app_l by lia. rewrite lookup_take_lt by lia. reflexivity. }
  rewrite Eprev. unfold pad.
  destruct (endswith (rstrip above) ":"); [|reflexivity].
  unfold AutoIndent.insert_text. cbn [AutoIndent.lines AutoIndent.line AutoIndent.col].
  f_equal. replace (S (S k) - 1) with (S k) by lia.
  unfold new_lines. rewrite (cons_middle (upto cur c)), app_assoc.
  rewrite alter_middle by (rewrite length_app, Htk; cbn; lia).
  rewrite upto_0, drop_chars_0. rewrite <- app_assoc. reflexivity.
Qed.

Lemma return_indents_from_line_above_witness :
  ["x = 1"; "    if x:"] !! 1 = Some "    if x:"
  /\ AutoIndent._on_return
       {| AutoIndent.lines := ["x = 1"; "    if x:"]; AutoIndent.line := 2; AutoIndent.col := 9 |}
     = {| AutoIndent.lines := ["x = 1"; "    if x:"; EmptyString];
          AutoIndent.line := 3; AutoIndent.col := 0 |}.
Proof.
  split; [reflexivity|].
  etransitivity;
    [apply (return_indents_from_line_above ["x = 1"; "    if x:"] 1 9 "    if x:");
     [reflexivity|vm_compute; lia]|].
  vm_compute. reflexivity.
Defined.

(** ** Where a one-line region can come from *)

(** X19. In a Python text every region, whatever its type (function,
    class or block), either ends after the line it starts on or starts and
    ends on the last line of the text. *)
Theorem one_line_region_only_on_last_line :
  forall (content filepath : string) (regions : list region),
    endswith filepath ".py" = true ->
    analyze content filepath = Some regions ->
    Forall (fun r => region_start r < region_end r
                     \/ (region_start r = last_line content
                         /\ region_end r = last_line content)) regions.
Proof.
  intros content filepath regions Hpy. unfold analyze.
  rewrite (py_suffix_nonempty _ Hpy), Hpy. intros [= <-].
  pose proof (indent_analyze_within (split_lines content)) as Hw.
  unfold Indent.analyze in *. unfold last_line.
  pose proof (indent_loop_regions_proper (split_lines content) 1 ([], [])) as Hp.
  destruct (Indent.scan_lines 1 (split_lines content) ([], [])) as [stack loop_regions].
  cbn [snd] in Hp. assert (Hnil : proper []) by constructor. specialize (Hp Hnil).
  apply Forall_app in Hw as [_ Hw]. apply Forall_app. split.
  - eapply Forall_impl; [exact Hp|]. intros r Hr. now left.
  - unfold Indent.close_remaining in *. rewrite Forall_forall in Hw |- *.
    intros r Hr. pose proof (Hw r Hr) as (_ & _ & Hse & _).
    apply list_elem_of_In, in_map_iff in Hr as ([[ty start] ind] & <- & _).
    cbn [fst snd region_start region_end] in *.
    destruct (Nat.eq_dec start (length (split_lines content))); [now right|left; lia].
Qed.

Lemma one_line_region_only_on_last_line_witness :
  endswith "m.py" ".py" = true
  /\ analyze ("def f():" ++ nl ++ "class C:") "m.py" = Some [("function", 1, 2); ("class", 2, 2)]
  /\ Forall (fun r => region_start r < region_end r \/ (region_start r = 2 /\ region_end r = 2))
       [("function", 1, 2) : region; ("class", 2, 2)].
Proof.
  assert (H : analyze ("def f():" ++ nl ++ "class C:") "m.py"
              = Some [("function", 1, 2); ("class", 2, 2)]) by (vm_compute; reflexivity).
  split; [reflexivity|]. split; [exact H|].
  exact (one_line_region_only_on_last_line _ "m.py" _ eq_refl H).
Defined.

(** ** File types seen by one routine and not by the other *)

Lemma substring_append_r a : forall n m b,
  String.substring (String.length a + n) m (a ++ b) = String.substring n m b.
Proof.
  induction a as [|c a IH]; intros n m b; [reflexivity|].
  change (String c a ++ b) with (String c (a ++ b)).
  cbn [String.length Nat.add String.substring]. apply IH.
Qed.

(** Whether a path ends in [q] is decided by any suffix at least as long. *)
Lemma endswith_append stem p q :
  len q <= len p -> endswith (stem ++ p) q = endswith p q.
Proof.
  intros Hq. unfold endswith. rewrite len_append.
  destruct (Nat.leb_spec (len q) (len p)); [|lia].
  destruct (Nat.leb_spec (len q) (len stem + len p)); [|lia].
  cbn [andb]. f_equal.
  replace (len stem + len p - len q) with (String.length stem + (len p - len q))
    by (unfold len in *; lia).
  apply substring_append_r.
Qed.

Lemma last_char_append a c r : last_char (a ++ String c r) = last_char (String c r).
Proof.
  induction a as [|d a IH]; [reflexivity|].
  change (String d a ++ String c r) with (String d (a ++ String c r)).
  cbn [last_char]. rewrite IH.
  destruct a; reflexivity.
Qed.

(** A path that ends in one suffix does not end in a suffix with another
    last character. *)
Lemma endswith_other_last stem c r d q :
  last_char (String c r) <> last_char (String d q) ->
  endswith (stem ++ String c r) (String d q) = false.
Proof.
  intros Hne. destruct (endswith (stem ++ String c r) (String d q)) eqn:E; [|reflexivity].
  apply endswith_split in E as [stem' E]. apply (f_equal last_char) in E.
  rewrite !last_char_append in E. contradiction.
Qed.

(** X20. A file whose path ends in [.cc], [.cxx] or [.hpp] is coloured
    with the C++ lexer but never gets fold regions: the analyzer stores the
    empty list for it, whatever the text. *)
Theorem highlighted_but_not_folded :
  forall (content filepath : string),
    endswith_any filepath [".cc"; ".cxx"; ".hpp"] = true ->
    Highlight.select_lexer filepath = Some Highlight.CppLexer
    /\ analyze content filepath = Some [].
Proof.
  intros content filepath H.
  assert (Hcpp : endswith_any filepath [".cpp"; ".cc"; ".cxx"; ".h"; ".hpp"] = true).
  { unfold endswith_any in *. cbn [existsb] in *.
    repeat (apply orb_prop in H as [H|H]); try discriminate;
      rewrite ?H, ?orb_true_r; reflexivity. }
  unfold endswith_any in H. cbn [existsb] in H. rewrite orb_false_r in H.
  assert (Hs : exists stem p, filepath = stem ++ p /\ In p [".cc"; ".cxx"; ".hpp"]).
  { repeat (apply orb_prop in H as [H|H]); apply endswith_split in H as [stem ->];
      eexists _, _; (split; [reflexivity|]); cbn; auto. }
  destruct Hs as (stem & p & -> & Hp).
  assert (Hne : String.eqb (stem ++ p) EmptyString = false).
  { apply String.eqb_neq. intros E. apply (f_equal len) in E. rewrite len_append in E.
    destruct Hp as [<-|[<-|[<-|[]]]]; cbn in E; lia. }
  assert (Hno : endswith (stem ++ p) ".py" = false /\ endswith (stem ++ p) ".c" = false
                /\ endswith (stem ++ p) ".cpp" = false /\ endswith (stem ++ p) ".h" = false).
  { destruct Hp as [<-|[<-|[<-|[]]]]; repeat split;
      first [ apply endswith_other_last; vm_compute; discriminate
            | rewrite endswith_append by (vm_compute; lia); reflexivity ]. }
  destruct Hno as (Hpy & Hc & Hcp & Hh).
  unfold Highlight.select_lexer, analyze. rewrite Hne, Hpy, Hc, Hcpp.
  unfold endswith_any. cbn [existsb]. now rewrite Hc, Hcp, Hh.
Qed.

Lemma highlighted_but_not_folded_witness :
  endswith_any "shape.hpp" [".cc"; ".cxx"; ".hpp"] = true
  /\ Highlight.select_lexer "shape.hpp" = Some Highlight.CppLexer
  /\ analyze Inputs.nested_structs "shape.hpp" = Some [].
Proof.
  split; [reflexivity|].
  apply (highlighted_but_not_folded Inputs.nested_structs "shape.hpp"). reflexivity.
Defined.

(** ** Tags are placed by searching the text (C2) *)

Section TagSearch.

Import Highlight.



End TagSearch.




(** ** A brace inside a string literal after a character literal (C6) *)

